(** * Signal engine of the trading-signal application ([src/main.py])

    A shallow embedding of the class [TradingSignal]: the indicator
    functions [calculate_rsi] and [calculate_sma], the classification block of
    [generate_signal] and the record [generate_signal] returns, together with
    the part of the Python run time they rest on.

    Python's [float] is IEEE 754 binary64, which is what Rocq's primitive
    [float] is; Python's [int] is unbounded and becomes [Z].  The source mixes
    both (the literal [0] in [d if d > 0 else 0] and in [return 0] is an [int]),
    so numbers are the sum type [Py.num], with Python's coercion rules written
    out.  Exceptions are an explicit result type.

    The file has the run time and the program first, then the vocabulary of
    the specification, then the lemmas (binary64 rounding, comparisons, lists,
    sums) and the properties of the specification, each under the number
    it has there.

    After them come further properties of the same code, numbered from X1:
    the windows and the extreme values of the indicators, the period 0, the
    record of [generate_signal] and what [display_signal] reads from it, and
    the body of [fetch_data] on the decoded response of the exchange. *)

From Stdlib Require Import ZArith List Bool Lia Floats.
From stdpp Require Import base option list gmap strings pretty.
Import ListNotations.

Local Open Scope Z_scope.

(* ===================================================================== *)
(** * The Python run time the program uses *)
(* ===================================================================== *)

Module Py.

(** ** Exceptions and results *)

Inductive exn := ZeroDivisionError | OverflowError | KeyError.

Inductive result (A : Type) : Type :=
  | Ok (a : A)
  | Raise (e : exn).
Arguments Ok {A} a.
Arguments Raise {A} e.

#[global] Instance result_ret : MRet result := fun A a => Ok a.
#[global] Instance result_bind : MBind result :=
  fun A B f m => match m with Ok a => f a | Raise e => Raise e end.
#[global] Instance result_fmap : FMap result :=
  fun A B f m => match m with Ok a => Ok (f a) | Raise e => Raise e end.

(** The computation ends with a value, not with an exception. *)
Definition returns {A} (m : result A) : Prop := exists a, m = Ok a.

(** ** Numbers *)

Inductive num := Int (z : Z) | Float (f : float).

(** Values stored in a [dict] of the program: numbers and strings. *)
Inductive val := Num (n : num) | Str (s : string).

(** [int] to [float], as [PyLong_AsDouble] does it: round to nearest, ties to
    even, and [OverflowError] when the magnitude has no finite binary64. *)
Definition SF_of_int (z : Z) : spec_float := binary_normalize prec emax z 0 false.

Definition float_of_SF (x : spec_float) : result float :=
  match x with
  | S754_infinity _ => Raise OverflowError
  | _ => Ok (SF2Prim x)
  end.

Definition float_of_int (z : Z) : result float := float_of_SF (SF_of_int z).

(** Python compares an [int] with a [float] by value, without rounding the
    [int]: [z] against [(-1)^s * m * 2^e]. *)
Definition Z_SF_compare (z : Z) (x : spec_float) : option comparison :=
  match x with
  | S754_nan => None
  | S754_infinity s => Some (if s then Gt else Lt)
  | S754_zero _ => Some (z ?= 0)
  | S754_finite s m (Zneg k) => Some (z * 2 ^ Zpos k ?= cond_Zopp s (Zpos m))
  | S754_finite s m e => Some (z ?= cond_Zopp s (Zpos m) * 2 ^ e)
  end.

Definition int_float_compare (z : Z) (f : float) : option comparison :=
  Z_SF_compare z (Prim2SF f).

Definition is_cmp (c : comparison) (o : option comparison) : bool :=
  match o with
  | Some c' => match c, c' with Lt, Lt | Eq, Eq | Gt, Gt => true | _, _ => false end
  | None => false
  end.

(** [x < y] *)
Definition lt (x y : num) : bool :=
  match x, y with
  | Int a, Int b => a <? b
  | Float a, Float b => PrimFloat.ltb a b
  | Int a, Float b => is_cmp Lt (int_float_compare a b)
  | Float a, Int b => is_cmp Gt (int_float_compare b a)
  end.

(** [x > y] *)
Definition gt (x y : num) : bool := lt y x.

(** [x == y] *)
Definition eq (x y : num) : bool :=
  match x, y with
  | Int a, Int b => a =? b
  | Float a, Float b => PrimFloat.eqb a b
  | Int a, Float b => is_cmp Eq (int_float_compare a b)
  | Float a, Int b => is_cmp Eq (int_float_compare b a)
  end.

(** [x <= y] *)
Definition le (x y : num) : bool :=
  match x, y with
  | Int a, Int b => a <=? b
  | Float a, Float b => PrimFloat.leb a b
  | Int a, Float b => is_cmp Lt (int_float_compare a b) || is_cmp Eq (int_float_compare a b)
  | Float a, Int b => is_cmp Gt (int_float_compare b a) || is_cmp Eq (int_float_compare b a)
  end.

(** [x + y] and [x - y]: exact on two [int]s, binary64 as soon as one operand
    is a [float]. *)
Definition add (x y : num) : result num :=
  match x, y with
  | Int a, Int b => Ok (Int (a + b))
  | Int a, Float b => fa ← float_of_int a; Ok (Float (PrimFloat.add fa b))
  | Float a, Int b => fb ← float_of_int b; Ok (Float (PrimFloat.add a fb))
  | Float a, Float b => Ok (Float (PrimFloat.add a b))
  end.

Definition sub (x y : num) : result num :=
  match x, y with
  | Int a, Int b => Ok (Int (a - b))
  | Int a, Float b => fa ← float_of_int a; Ok (Float (PrimFloat.sub fa b))
  | Float a, Int b => fb ← float_of_int b; Ok (Float (PrimFloat.sub a fb))
  | Float a, Float b => Ok (Float (PrimFloat.sub a b))
  end.

(** [x / y] (true division).  A zero divisor raises [ZeroDivisionError]; the
    quotient of two [int]s is the correctly rounded binary64 of the exact
    quotient. *)
Definition float_div (a b : float) : result float :=
  if PrimFloat.eqb b 0%float then Raise ZeroDivisionError
  else Ok (PrimFloat.div a b).

Definition SF_raw (z : Z) : spec_float :=
  match z with
  | Z0 => S754_zero false
  | Zpos p => S754_finite false p 0
  | Zneg p => S754_finite true p 0
  end.

Definition int_true_divide (a b : Z) : result float :=
  if b =? 0 then Raise ZeroDivisionError
  else float_of_SF (SFdiv prec emax (SF_raw a) (SF_raw b)).

Definition truediv (x y : num) : result num :=
  match x, y with
  | Int a, Int b => Float <$> int_true_divide a b
  | Int a, Float b => fa ← float_of_int a; Float <$> float_div fa b
  | Float a, Int b => fb ← float_of_int b; Float <$> float_div a fb
  | Float a, Float b => Float <$> float_div a b
  end.

(** [sum(l)]: the items are added from left to right, starting from the
    [int] [0], as the language reference defines it.  (CPython 3.12 and later
    add the floats of a list with a compensated summation; the sums here are
    the plain ones of the earlier versions.) *)
Fixpoint sum_from (acc : num) (l : list num) : result num :=
  match l with
  | [] => Ok acc
  | x :: l' => acc' ← add acc x; sum_from acc' l'
  end.

Definition sum (l : list num) : result num := sum_from (Int 0) l.

(** ** Lists *)

Definition len {A} (l : list A) : Z := Z.of_nat (length l).

(** [sys.maxsize] of a 64-bit build: no list is longer. *)
Definition maxsize : Z := 2 ^ 63 - 1.

(** [l[start:]]: a negative [start] counts from the end, and both ends are
    clipped to the list. *)
Definition slice_from {A} (start : Z) (l : list A) : list A :=
  let start' := if start <? 0 then Z.max (start + len l) 0 else Z.min start (len l) in
  drop (Z.to_nat start') l.

(** ** Dictionaries with string keys *)

(** [d[k]] *)
Definition getitem (d : gmap string val) (k : string) : result val :=
  match d !! k with
  | Some v => Ok v
  | None => Raise KeyError
  end.

(** ** [datetime] and [strftime] *)

Record datetime := {
  year : Z; month : Z; day : Z;
  hour : Z; minute : Z; second : Z
}.

(** A field of the date as [width] decimal digits, padded with zeros. *)
Definition zero_pad (width : nat) (n : Z) : string :=
  let s := pretty (Z.to_N n) in
  Nat.iter (width - String.length s) (fun t => "0" +:+ t) s.

(** [dt.strftime('%Y-%m-%d %H:%M:%S')] *)
Definition strftime_Ymd_HMS (dt : datetime) : string :=
  zero_pad 4 (year dt) +:+ "-" +:+ zero_pad 2 (month dt) +:+ "-" +:+ zero_pad 2 (day dt)
  +:+ " " +:+ zero_pad 2 (hour dt) +:+ ":" +:+ zero_pad 2 (minute dt) +:+ ":" +:+ zero_pad 2 (second dt).

End Py.

Import Py.

(* ===================================================================== *)
(** * The program: class [TradingSignal] *)
(* ===================================================================== *)

(** One element of the list [fetch_data] builds: the [dict] with the keys
    ['timestamp'], ['open'], ['high'], ['low'], ['close'] and ['volume'].
    The five prices are the results of [float(...)]; the time stamp is the
    [int] of the response. *)
Record Candle := {
  timestamp : Z;
  open : float;
  high : float;
  low : float;
  close : float;
  volume : float
}.

(** What lies outside the program: the exchange behind [requests.get], and the
    clock behind [datetime.now()].  [klines symbol interval limit] is what the
    [try] block of [fetch_data] ends with: the parsed rows, or [None] when
    anything in it raised (network, JSON, a row that does not parse). *)
Record World := {
  klines : string -> string -> Z -> option (list Candle);
  now : datetime
}.

Section TradingSignal.

(** [self.symbol] *)
Variable symbol : string.
Variable world : World.

(** [fetch_data]: the rows, or [[]] from the [except] branch. *)
Definition fetch_data (interval : string) (limit : Z) : list Candle :=
  match klines world symbol interval limit with
  | Some prices => prices
  | None => []
  end.

(** [deltas = [closes[i] - closes[i-1] for i in range(1, len(closes))]] *)
Definition deltas (closes : list float) : list float :=
  map (fun i => PrimFloat.sub (nth i closes 0%float) (nth (i - 1) closes 0%float))
      (seq 1 (length closes - 1)).

(** [d if d > 0 else 0] and [-d if d < 0 else 0] *)
Definition gain (d : float) : num :=
  if gt (Float d) (Int 0) then Float d else Int 0.
Definition loss (d : float) : num :=
  if lt (Float d) (Int 0) then Float (PrimFloat.opp d) else Int 0.

Definition calculate_rsi (prices : list Candle) (period : Z) : result num :=
  if len prices <? period + 1 then Ok (Float 50%float)
  else
    let closes := map close prices in
    let deltas := deltas closes in
    let gains := map gain (slice_from (- period) deltas) in
    let losses := map loss (slice_from (- period) deltas) in
    sum_gains ← sum gains;
    avg_gain ← truediv sum_gains (Int period);
    sum_losses ← sum losses;
    avg_loss ← truediv sum_losses (Int period);
    if eq avg_loss (Int 0) then Ok (Float 100%float)
    else
      rs ← truediv avg_gain avg_loss;
      one_plus_rs ← add (Int 1) rs;
      quotient ← truediv (Int 100) one_plus_rs;
      sub (Int 100) quotient.

Definition calculate_sma (prices : list Candle) (period : Z) : result num :=
  if len prices <? period then Ok (Int 0)
  else
    let closes := map close (slice_from (- period) prices) in
    sum_closes ← sum (map Float closes);
    truediv sum_closes (Int period).

(** The two votes of [generate_signal]: the counters [buy_signals] and
    [sell_signals] after the two [if]/[elif] statements. *)
Definition votes (rsi sma_20 sma_50 : num) : Z * Z :=
  let buy_signals := 0 in
  let sell_signals := 0 in
  let '(buy_signals, sell_signals) :=
    if lt rsi (Int 30) then (buy_signals + 1, sell_signals)
    else if gt rsi (Int 70) then (buy_signals, sell_signals + 1)
    else (buy_signals, sell_signals) in
  let '(buy_signals, sell_signals) :=
    if gt sma_20 sma_50 then (buy_signals + 1, sell_signals)
    else if lt sma_20 sma_50 then (buy_signals, sell_signals + 1)
    else (buy_signals, sell_signals) in
  (buy_signals, sell_signals).

(** The decision on the counters: [(signal, strength, recommendation)]. *)
Definition decide_signal (buy_signals sell_signals : Z) : string * Z * string :=
  if buy_signals >=? 2 then ("BUY", buy_signals, "Strong BUY signal detected")
  else if sell_signals >=? 2 then ("SELL", sell_signals, "Strong SELL signal detected")
  else ("HOLD", 0, "No clear signal - HOLD position").

(** The classification block of [generate_signal] (from [buy_signals = 0] to
    the last [else]).  [current_price] is in scope there and is not read. *)
Definition classify (current_price rsi sma_20 sma_50 : num) : string * Z * string :=
  let '(buy_signals, sell_signals) := votes rsi sma_20 sma_50 in
  decide_signal buy_signals sell_signals.

Definition generate_signal (interval : string) : result (gmap string val) :=
  let prices := fetch_data interval 100 in
  match last prices with
  | None =>
      Ok (<["symbol" := Str symbol]> (
          <["price" := Num (Int 0)]> (
          <["signal" := Str "ERROR"]> (
          <["strength" := Num (Int 0)]> (
          <["rsi" := Num (Int 0)]> (
          <["sma_20" := Num (Int 0)]> (
          <["sma_50" := Num (Int 0)]> (
          <["recommendation" := Str "Unable to fetch data"]> ∅))))))))
  | Some last_candle =>
      let current_price := Float (close last_candle) in
      rsi ← calculate_rsi prices 14;
      sma_20 ← calculate_sma prices 20;
      sma_50 ← calculate_sma prices 50;
      let '(signal, strength, recommendation) := classify current_price rsi sma_20 sma_50 in
      Ok (<["symbol" := Str symbol]> (
          <["price" := Num current_price]> (
          <["signal" := Str signal]> (
          <["strength" := Num (Int strength)]> (
          <["rsi" := Num rsi]> (
          <["sma_20" := Num sma_20]> (
          <["sma_50" := Num sma_50]> (
          <["recommendation" := Str recommendation]> (
          <["timestamp" := Str (strftime_Ymd_HMS (now world))]> ∅)))))))))
  end.

End TradingSignal.

(** [v != s] for a string literal [s] *)
Definition ne_str (v : val) (s : string) : bool :=
  match v with
  | Str t => negb (String.eqb t s)
  | Num _ => true
  end.

(** The keys [MainScreen.display_signal] reads from the record it is given, in
    the order it reads them; ['strength'] only for a BUY or a SELL.  The
    widgets built from the values are left out. *)
Definition display_signal (signal : gmap string val) : result (list val) :=
  price ← getitem signal "price";
  sig ← getitem signal "signal";
  strength ← (if ne_str sig "HOLD" && ne_str sig "ERROR"
              then (fun v => [v]) <$> getitem signal "strength" else Ok []);
  rsi ← getitem signal "rsi";
  sma_20 ← getitem signal "sma_20";
  sma_50 ← getitem signal "sma_50";
  time ← getitem signal "timestamp";
  recommendation ← getitem signal "recommendation";
  Ok ([price; sig] ++ strength ++ [rsi; sma_20; sma_50; time; recommendation]).

(** The values of the local variables [avg_gain] and [avg_loss] of
    [calculate_rsi]. *)
Definition average_gain (prices : list Candle) (period : Z) : result num :=
  sum_gains ← sum (map gain (slice_from (- period) (deltas (map close prices))));
  truediv sum_gains (Int period).
Definition average_loss (prices : list Candle) (period : Z) : result num :=
  sum_losses ← sum (map loss (slice_from (- period) (deltas (map close prices))));
  truediv sum_losses (Int period).

(* ===================================================================== *)
(** * The specification's vocabulary *)
(* ===================================================================== *)

(** ** The classifier *)

(** The buy votes and the sell votes as the specification words them: one
    vote per criterion, the sell vote only when the buy vote is not cast. *)
Definition buy_count (rsi sma_20 sma_50 : num) : Z :=
  Z.b2z (lt rsi (Int 30)) + Z.b2z (gt sma_20 sma_50).
Definition sell_count (rsi sma_20 sma_50 : num) : Z :=
  Z.b2z (negb (lt rsi (Int 30)) && gt rsi (Int 70))
  + Z.b2z (negb (gt sma_20 sma_50) && lt sma_20 sma_50).

(** ** The indicators *)

(** Successive close-to-close differences, by recursion on the list. *)
Fixpoint successive_differences (closes : list float) : list float :=
  match closes with
  | a :: (b :: _) as rest => PrimFloat.sub b a :: successive_differences rest
  | _ => []
  end.

(** The last [n] items of a list (all of it when it has fewer). *)
Definition last_n {A} (n : nat) (l : list A) : list A := drop (length l - n) l.

(** Every close exceeds the one before it by 1, as the program measures it. *)
Definition rises_by_one (closes : list float) : Prop :=
  Forall (fun d => d = 1%float) (successive_differences closes).

Definition is_positive (d : float) : bool := gt (Float d) (Int 0).
Definition is_negative (d : float) : bool := lt (Float d) (Int 0).

(** The binary64 sum of a list of floats, from left to right. *)
Definition fsum (xs : list float) : float := fold_left PrimFloat.add xs 0%float.

(** A count as a float (rounded to nearest when it has more than 53 bits). *)
Definition float_of_Z (z : Z) : float := SF2Prim (SF_of_int z).

(** The arithmetic mean of a list of floats. *)
Definition mean (xs : list float) : float :=
  PrimFloat.div (fsum xs) (float_of_Z (len xs)).

(** The RSI of an average gain and an average loss. *)
Definition rsi_of_averages (avg_gain avg_loss : float) : float :=
  if PrimFloat.eqb avg_loss 0 then 100%float
  else (100 - 100 / (1 + avg_gain / avg_loss))%float.

(** The items [f d if test d else 0] of a comprehension. *)
Definition item (test : float -> bool) (f : float -> float) (d : float) : num :=
  if test d then Float (f d) else Int 0.

(** ** The time stamp *)

Definition is_digit (c : Ascii.ascii) : bool :=
  (48 <=? Ascii.nat_of_ascii c)%nat && (Ascii.nat_of_ascii c <=? 57)%nat.

(** The letter d (character 100). *)
Definition letter_d : Ascii.ascii :=
  Ascii.Ascii false false true false false true true false.

(** [s] is made of the characters the pattern allows: a decimal digit where
    the pattern has a [d], and the pattern's own character elsewhere. *)
Fixpoint matches (pattern s : string) : bool :=
  match pattern, s with
  | String.EmptyString, String.EmptyString => true
  | String.String p pattern', String.String c s' =>
      (if Ascii.eqb p letter_d then is_digit c else Ascii.eqb p c) && matches pattern' s'
  | _, _ => false
  end.

(** The decimal digits of [x] put before [s], at most [k] of them: what
    [pretty] prints for an [x] below [10^k]. *)
Fixpoint render (k : nat) (x : N) (s : string) : string :=
  match k with
  | O => s
  | S k' =>
      if (x =? 0)%N then s
      else render k' (x / 10)%N (String.String (pretty_N_char (x mod 10)%N) s)
  end.

(** A date and time of the common era with a four-digit year. *)
Definition four_digit_year (dt : datetime) : Prop :=
  1000 <= year dt <= 9999 /\ 1 <= month dt <= 12 /\ 1 <= day dt <= 31
  /\ 0 <= hour dt <= 23 /\ 0 <= minute dt <= 59 /\ 0 <= second dt <= 59.

(** ** Sample data *)

(** A candle whose four prices are [price]. *)
Definition candle_at (price : float) : Candle :=
  {| timestamp := 0; open := price; high := price; low := price; close := price;
     volume := 0%float |}.

Definition closes_1_to_14 : list float :=
  [1; 2; 3; 4; 5; 6; 7; 8; 9; 10; 11; 12; 13; 14]%float.
Definition closes_1_to_15 : list float := closes_1_to_14 ++ [15%float].

(** Sixteen closes with gains and losses among their differences. *)
Definition zigzag : list float :=
  [1; 3; 2; 5; 4; 4; 7; 6; 9; 8; 11; 10; 13; 12; 15; 14.5]%float.

(** [2^1023]: twice this is beyond the largest binary64. *)
Definition huge : float := 0x1p1023%float.
Definition seesaw : list float :=
  [0; huge; 0; huge; 0; huge; 0; huge; 0; huge; 0; huge; 0; huge; 0]%float.

(** A world in which every request fails. *)
Definition offline (clock : datetime) : World :=
  {| klines := fun _ _ _ => None; now := clock |}.

(** A world in which every request is answered with [prices]. *)
Definition serving (prices : list Candle) (clock : datetime) : World :=
  {| klines := fun _ _ _ => Some prices; now := clock |}.

Definition noon : datetime :=
  {| year := 2024; month := 3; day := 7; hour := 12; minute := 0; second := 0 |}.

(* ===================================================================== *)
(** * The body of [fetch_data] *)
(* ===================================================================== *)

(** [fetch_data] sends one request and turns the decoded response into a
    list of dicts inside a [try] whose [except Exception] branch returns
    [[]].  The request is the outcome it has: the decoded body, or nothing
    when [requests.get] or [response.json()] raises.  What the [except]
    branch prints is left out. *)

(** What [response.json()] returns.  The entries of a [JDict] are the items
    of the dict, in its order; a string is the sequence of its characters. *)
#[warnings="-register-all"] Inductive json :=
  | JNull
  | JBool (b : bool)
  | JInt (z : Z)
  | JFloat (f : float)
  | JStr (s : string)
  | JList (items : list json)
  | JDict (entries : list (string * json)).

(** The characters of a string, each as the string of length 1 that Python
    makes of it. *)
Definition chars (s : string) : list string :=
  map (fun c => String.String c String.EmptyString) (String.list_ascii_of_string s).

(** [for candle in data]: the values the loop variable takes, or [None] when
    [data] cannot be iterated over ([TypeError]).  A dict yields its keys and
    a string its characters. *)
Definition iterate (data : json) : option (list json) :=
  match data with
  | JList items => Some items
  | JDict entries => Some (map (fun entry => JStr entry.1) entries)
  | JStr s => Some (map JStr (chars s))
  | JNull | JBool _ | JInt _ | JFloat _ => None
  end.

(** [candle[i]] for an [int] literal [i]; [None] is [IndexError], [KeyError]
    (the keys of a decoded object are strings, never the int [i]) or
    [TypeError]. *)
Definition subscript (candle : json) (i : nat) : option json :=
  match candle with
  | JList items => items !! i
  | JStr s => JStr <$> chars s !! i
  | JDict _ | JNull | JBool _ | JInt _ | JFloat _ => None
  end.

(** One dict of the list [fetch_data] returns: ['timestamp'] is the item of
    the response as it came, the five others are floats. *)
Record Kline := {
  k_timestamp : json;
  k_open : float; k_high : float; k_low : float; k_close : float; k_volume : float
}.

Section FetchData.

(** [float(s)] for a string [s]: the float it reads, or [None] for
    [ValueError]. *)
Variable float_of_str : string -> option float.

(** [float(x)]; [None] is [ValueError], [OverflowError] or [TypeError]. *)
Definition float_of (x : json) : option float :=
  match x with
  | JFloat f => Some f
  | JInt z => match float_of_int z with Ok f => Some f | Raise _ => None end
  | JBool b => Some (if b then 1%float else 0%float)
  | JStr s => float_of_str s
  | JNull | JList _ | JDict _ => None
  end.

(** The dict appended for one item of the response; [None] when building it
    raises. *)
Definition candle_dict (candle : json) : option Kline :=
  timestamp ← subscript candle 0;
  open ← subscript candle 1 ≫= float_of;
  high ← subscript candle 2 ≫= float_of;
  low ← subscript candle 3 ≫= float_of;
  close ← subscript candle 4 ≫= float_of;
  volume ← subscript candle 5 ≫= float_of;
  Some {| k_timestamp := timestamp; k_open := open; k_high := high; k_low := low;
          k_close := close; k_volume := volume |}.

(** The loop over the decoded response; [None] when it raises. *)
Definition parse_klines (data : json) : option (list Kline) :=
  iterate data ≫= mapM candle_dict.

(** [fetch_data] on the outcome of the request: every exception ends in
    [return []]. *)
Definition fetch_klines (response : option json) : list Kline :=
  default [] (response ≫= parse_klines).

(** A [Kline] as a [Candle].  The program never reads the time stamp; one
    that is not an int is 0 here. *)
Definition candle_of (k : Kline) : Candle :=
  {| timestamp := match k_timestamp k with JInt z => z | _ => 0 end;
     open := k_open k; high := k_high k; low := k_low k; close := k_close k;
     volume := k_volume k |}.

(** The world of an exchange that answers the request for [symbol],
    [interval] and [limit] with [http symbol interval limit]. *)
Definition exchange (http : string -> string -> Z -> option json) (clock : datetime) : World :=
  {| klines := fun symbol interval limit =>
       map candle_of <$> (http symbol interval limit ≫= parse_klines);
     now := clock |}.

End FetchData.

(* ===================================================================== *)
(** * The time of day [display_signal] shows *)
(* ===================================================================== *)

(** [c.isspace()] for a character below 256 *)
Definition is_space (c : Ascii.ascii) : bool :=
  let n := Ascii.nat_of_ascii c in
  ((9 <=? n) && (n <=? 13) || (28 <=? n) && (n <=? 32) || (n =? 133) || (n =? 160))%nat.

(** [s.split()]: the maximal runs of characters that are not white space.
    [word] is the run being read. *)
Fixpoint split_from (word s : string) : list string :=
  match s with
  | String.EmptyString =>
      match word with String.EmptyString => [] | _ => [word] end
  | String.String c s' =>
      if is_space c then
        match word with
        | String.EmptyString => split_from String.EmptyString s'
        | _ => word :: split_from String.EmptyString s'
        end
      else split_from (word +:+ String.String c String.EmptyString) s'
  end.
Definition split (s : string) : list string := split_from String.EmptyString s.

(** [signal['timestamp'].split()[1]], the value of the Time indicator;
    [None] when it raises ([KeyError], [AttributeError] on a number,
    [IndexError]). *)
Definition time_of_day (signal : gmap string val) : option string :=
  match signal !! "timestamp" with
  | Some (Str s) => split s !! 1%nat
  | _ => None
  end.

(** No character of [s] is white space. *)
Fixpoint no_space (s : string) : bool :=
  match s with
  | String.EmptyString => true
  | String.String c s' => negb (is_space c) && no_space s'
  end.

(** The keys of the record of the [if not prices] branch. *)
Definition error_keys : gset string :=
  {[ "symbol"; "price"; "signal"; "strength"; "rsi"; "sma_20"; "sma_50"; "recommendation" ]}.

(** ** Sample responses *)

(** Fifteen equal closes, and fifteen closes that fall by 1 at each step. *)
Definition flat_closes : list float := replicate 15 7%float.
Definition closes_15_to_1 : list float := rev closes_1_to_15.

(** Twenty-five closes that rise by 1 at each step, and the same falling. *)
Definition closes_1_to_25 : list float :=
  closes_1_to_15 ++ [16; 17; 18; 19; 20; 21; 22; 23; 24; 25]%float.
Definition closes_25_to_1 : list float := rev closes_1_to_25.

(** A candle that closes at [price] after a fall to 0, with a time stamp and
    a volume. *)
Definition traded_at (price : float) : Candle :=
  {| timestamp := 1700000000000; open := price; high := price; low := 0%float;
     close := price; volume := 9%float |}.

(** [float(s)] on the strings of decimal digits, the only strings of the
    sample responses. *)
Definition float_of_digits (s : string) : option float :=
  match s with
  | String.EmptyString => None
  | _ =>
      if forallb is_digit (String.list_ascii_of_string s)
      then Some (float_of_Z
                   (fold_left (fun n c => 10 * n + (Z.of_nat (Ascii.nat_of_ascii c) - 48))
                              (String.list_ascii_of_string s) 0))
      else None
  end.

(** A row of the exchange: the open time, the five numbers as strings, and
    the six further fields the exchange sends. *)
Definition kline_row (time : Z) (price : string) : json :=
  JList [JInt time; JStr price; JStr price; JStr price; JStr price; JStr "0";
         JInt (time + 3599999); JStr "0"; JInt 0; JStr "0"; JStr "0"; JStr "0"].
Definition two_rows : json := JList [kline_row 0 "41000"; kline_row 3600000 "42000"].

(** The object the exchange answers a request it refuses with. *)
Definition error_object : list (string * json) :=
  [("code", JInt (-1121)); ("msg", JStr "Invalid symbol.")].

(** An exchange that answers every request with [body]. *)
Definition answering (body : json) : string -> string -> Z -> option json :=
  fun _ _ _ => Some body.

(* ===================================================================== *)
(** * Binary64 rounding *)
(* ===================================================================== *)

(** The facts about [SpecFloat]'s rounding that the bounds on the RSI need.
    Every operation of [PrimFloat] is specified by its counterpart on
    [spec_float], which ends in [binary_round_aux]. *)

Local Abbreviation fexp := (SpecFloat.fexp prec emax).

(** A shift record that has lost no bit. *)
Definition exact (mrs : shr_record) : Prop := shr_r mrs = false /\ shr_s mrs = false.

(** The float a rounded mantissa [m] at exponent [e] stands for: the
    mantissa [2^53] is carried into the exponent, and an exponent above
    [emax - prec] is an infinity. *)
Definition pack (sx : bool) (m e : Z) : spec_float :=
  match m with
  | Z.pos p =>
      if m =? 2 ^ 53 then
        if e + 1 <=? 971 then S754_finite sx (2 ^ 52)%positive (e + 1)
        else S754_infinity sx
      else if e <=? 971 then S754_finite sx p e else S754_infinity sx
  | _ => S754_zero sx
  end.

(** A float that is [+0], positive and finite, or [+infinity]. *)
Definition nonneg (x : spec_float) : Prop :=
  match x with
  | S754_zero false | S754_finite false _ _ | S754_infinity false => True
  | _ => False
  end.

(** A float that is positive and finite, or [+infinity]. *)
Definition pos (x : spec_float) : Prop :=
  match x with
  | S754_finite false _ _ | S754_infinity false => True
  | _ => False
  end.

Definition SF_1 : spec_float := S754_finite false (2 ^ 52) (-52).
Definition SF_100 : spec_float := S754_finite false (25 * 2 ^ 48) (-46).

(** At least 1: [+infinity], or a finite positive float with exponent at
    least [-52] (whose mantissa, when it is valid, has 53 digits). *)
Definition ge1 (x : spec_float) : Prop :=
  match x with
  | S754_infinity false => True
  | S754_finite false _ e => -52 <= e
  | _ => False
  end.

(** Between 0 and 100: a zero, or a finite positive float [m * 2^e] with
    [m * 2^e <= 100]. *)
Definition le100 (x : spec_float) : Prop :=
  match x with
  | S754_zero _ => True
  | S754_finite false m e => e <= -46 /\ Z.pos m <= 25 * 2 ^ (2 - e)
  | _ => False
  end.

(** Case analysis on every test of the goal. *)
Ltac case_ifs :=
  repeat match goal with |- context [if ?b then _ else _] => destruct b end.

Section Binary64.

Lemma fexp_unfold (e : Z) : fexp e = Z.max (e - 53) (-1074).
Proof. reflexivity. Qed.

(** *** Number of binary digits *)

Lemma digits2_pos_bounds (p : positive) :
  2 ^ (Z.pos (digits2_pos p) - 1) <= Z.pos p < 2 ^ Z.pos (digits2_pos p).
Proof.
  induction p as [p IH|p IH|]; simpl digits2_pos.
  - rewrite Pos2Z.inj_succ, Z.pow_succ_r by lia.
    replace (Z.succ (Z.pos (digits2_pos p)) - 1) with (Z.succ (Z.pos (digits2_pos p) - 1)) by lia.
    rewrite Z.pow_succ_r by lia. lia.
  - rewrite Pos2Z.inj_succ, Z.pow_succ_r by lia.
    replace (Z.succ (Z.pos (digits2_pos p)) - 1) with (Z.succ (Z.pos (digits2_pos p) - 1)) by lia.
    rewrite Z.pow_succ_r by lia. lia.
  - simpl. lia.
Qed.

Lemma Zdigits2_bounds (m : Z) :
  0 < m -> 2 ^ (Zdigits2 m - 1) <= m < 2 ^ Zdigits2 m.
Proof. destruct m as [|p|p]; try lia. intros _. apply digits2_pos_bounds. Qed.

Lemma Zdigits2_pos (m : Z) : 0 < m -> 0 < Zdigits2 m.
Proof. destruct m; simpl; lia. Qed.

Lemma pow2_lt_inv (a b : Z) : 0 <= b -> 2 ^ a < 2 ^ b -> a < b.
Proof.
  intros Hb H. destruct (Z.lt_ge_cases a b) as [|Hge]; [assumption|].
  assert (2 ^ b <= 2 ^ a) by (apply Z.pow_le_mono_r; lia). lia.
Qed.

Lemma Zdigits2_unique (m d : Z) :
  0 < d -> 2 ^ (d - 1) <= m < 2 ^ d -> Zdigits2 m = d.
Proof.
  intros Hd [Hlo Hhi].
  assert (Hm : 0 < m) by (assert (0 < 2 ^ (d - 1)) by (apply Z.pow_pos_nonneg; lia); lia).
  pose proof (Zdigits2_bounds m Hm) as [Hlo' Hhi'].
  pose proof (Zdigits2_pos m Hm) as Hp.
  assert (d - 1 < Zdigits2 m) by (apply pow2_lt_inv; lia).
  assert (Zdigits2 m - 1 < d) by (apply pow2_lt_inv; lia).
  lia.
Qed.

Lemma Zdigits2_le (m d : Z) : 0 <= d -> 0 <= m < 2 ^ d -> Zdigits2 m <= d.
Proof.
  intros Hd [Hm Hhi]. destruct (Z.eq_dec m 0) as [->|]; [simpl; lia|].
  pose proof (Zdigits2_bounds m ltac:(lia)) as [Hlo' _].
  pose proof (Zdigits2_pos m ltac:(lia)).
  assert (Zdigits2 m - 1 < d) by (apply pow2_lt_inv; lia). lia.
Qed.

Lemma Zdigits2_ge (m d : Z) : 0 < d -> 2 ^ (d - 1) <= m -> d <= Zdigits2 m.
Proof.
  intros Hd Hlo.
  assert (Hm : 0 < m) by (assert (0 < 2 ^ (d - 1)) by (apply Z.pow_pos_nonneg; lia); lia).
  pose proof (Zdigits2_bounds m Hm) as [_ Hhi].
  pose proof (Zdigits2_pos m Hm).
  assert (d - 1 < Zdigits2 m) by (apply pow2_lt_inv; lia). lia.
Qed.

(** *** Shifting a mantissa to the right *)


Lemma shr_1_m (mrs : shr_record) :
  0 <= shr_m mrs -> shr_m (shr_1 mrs) = shr_m mrs / 2.
Proof.
  destruct mrs as [m r s]. simpl. intros Hm.
  destruct m as [|[p|p|]|p]; simpl; try lia; try reflexivity.
  - apply Z.div_unique with (r := 1); lia.
  - apply Z.div_unique with (r := 0); lia.
Qed.

Lemma shr_1_exact (mrs : shr_record) :
  0 <= shr_m mrs -> exact mrs -> shr_m mrs mod 2 = 0 -> exact (shr_1 mrs).
Proof.
  destruct mrs as [m r s]. unfold exact. simpl. intros Hm [-> ->] Hmod.
  destruct m as [|[p|p|]|p]; simpl; auto; try lia.
  - exfalso. rewrite Pos2Z.inj_xI in Hmod.
    rewrite Z.add_comm, Z.mul_comm, Z.mod_add in Hmod by lia. discriminate.
  - discriminate.
Qed.

Lemma iter_shr_1 (p : positive) (mrs : shr_record) :
  0 <= shr_m mrs ->
  shr_m (SpecFloat.iter_pos shr_1 p mrs) = shr_m mrs / 2 ^ Z.pos p
  /\ (exact mrs -> shr_m mrs mod 2 ^ Z.pos p = 0 -> exact (SpecFloat.iter_pos shr_1 p mrs)).
Proof.
  revert mrs. induction p as [p IH|p IH|]; intros mrs Hm; simpl SpecFloat.iter_pos.
  - assert (H1 : 0 <= shr_m (shr_1 mrs)) by (rewrite shr_1_m by lia; apply Z.div_pos; lia).
    destruct (IH _ H1) as [Ha Ha'].
    assert (H2 : 0 <= shr_m (SpecFloat.iter_pos shr_1 p (shr_1 mrs)))
      by (rewrite Ha; apply Z.div_pos; [lia|apply Z.pow_pos_nonneg; lia]).
    destruct (IH _ H2) as [Hb Hb'].
    assert (Hpow : 2 ^ Z.pos p~1 = 2 * 2 ^ Z.pos p * 2 ^ Z.pos p).
    { replace (Z.pos p~1) with (1 + Z.pos p + Z.pos p) by lia.
      rewrite !Z.pow_add_r by lia. reflexivity. }
    assert (Hp : 0 < 2 ^ Z.pos p) by (apply Z.pow_pos_nonneg; lia).
    split.
    + rewrite Hb, Ha, shr_1_m, Hpow by lia.
      rewrite !Z.div_div by lia. f_equal. lia.
    + intros Hex Hmod. rewrite Hpow in Hmod.
      apply Z.mod_divide in Hmod; [|lia]. destruct Hmod as [c Hc].
      apply Hb'.
      * apply Ha'.
        -- apply shr_1_exact; auto. rewrite Hc.
           replace (c * (2 * 2 ^ Z.pos p * 2 ^ Z.pos p)) with ((c * 2 ^ Z.pos p * 2 ^ Z.pos p) * 2) by lia.
           apply Z.mod_mul. lia.
        -- rewrite shr_1_m, Hc by lia.
           replace (c * (2 * 2 ^ Z.pos p * 2 ^ Z.pos p)) with ((c * 2 ^ Z.pos p * 2 ^ Z.pos p) * 2) by lia.
           rewrite Z.div_mul by lia. apply Z.mod_mul. lia.
      * rewrite Ha, shr_1_m, Hc by lia.
        replace (c * (2 * 2 ^ Z.pos p * 2 ^ Z.pos p)) with ((c * 2 ^ Z.pos p * 2 ^ Z.pos p) * 2) by lia.
        rewrite Z.div_mul by lia. rewrite Z.div_mul by lia. apply Z.mod_mul. lia.
  - destruct (IH _ Hm) as [Ha Ha'].
    assert (H2 : 0 <= shr_m (SpecFloat.iter_pos shr_1 p mrs))
      by (rewrite Ha; apply Z.div_pos; [lia|apply Z.pow_pos_nonneg; lia]).
    destruct (IH _ H2) as [Hb Hb'].
    assert (Hpow : 2 ^ Z.pos p~0 = 2 ^ Z.pos p * 2 ^ Z.pos p).
    { replace (Z.pos p~0) with (Z.pos p + Z.pos p) by lia.
      apply Z.pow_add_r; lia. }
    assert (Hp : 0 < 2 ^ Z.pos p) by (apply Z.pow_pos_nonneg; lia).
    split.
    + rewrite Hb, Ha, Hpow. rewrite Z.div_div by lia. reflexivity.
    + intros Hex Hmod. rewrite Hpow in Hmod.
      apply Z.mod_divide in Hmod; [|lia]. destruct Hmod as [c Hc].
      apply Hb'.
      * apply Ha'; auto. rewrite Hc.
        replace (c * (2 ^ Z.pos p * 2 ^ Z.pos p)) with ((c * 2 ^ Z.pos p) * 2 ^ Z.pos p) by lia.
        apply Z.mod_mul. lia.
      * rewrite Ha, Hc.
        replace (c * (2 ^ Z.pos p * 2 ^ Z.pos p)) with ((c * 2 ^ Z.pos p) * 2 ^ Z.pos p) by lia.
        rewrite Z.div_mul by lia. apply Z.mod_mul. lia.
  - split.
    + rewrite shr_1_m by lia. reflexivity.
    + intros Hex Hmod. apply shr_1_exact; auto.
Qed.

Lemma shr_fexp_spec (m e : Z) (l : location) :
  0 <= m ->
  exists mrs,
    shr_fexp prec emax m e l = (mrs, Z.max e (fexp (Zdigits2 m + e)))
    /\ shr_m mrs = m / 2 ^ (Z.max e (fexp (Zdigits2 m + e)) - e)
    /\ (l = loc_Exact -> m mod 2 ^ (Z.max e (fexp (Zdigits2 m + e)) - e) = 0 ->
        loc_of_shr_record mrs = loc_Exact).
Proof.
  intros Hm. unfold shr_fexp, shr.
  assert (Hrec : shr_m (shr_record_of_loc m l) = m) by (destruct l as [|[]]; reflexivity).
  destruct (fexp (Zdigits2 m + e) - e) as [|p|p] eqn:Hn.
  - exists (shr_record_of_loc m l).
    replace (Z.max e (fexp (Zdigits2 m + e))) with e by lia.
    rewrite Z.sub_diag, Z.div_1_r. repeat split; auto.
    intros -> _. reflexivity.
  - exists (SpecFloat.iter_pos shr_1 p (shr_record_of_loc m l)).
    replace (Z.max e (fexp (Zdigits2 m + e))) with (e + Z.pos p) by lia.
    replace (e + Z.pos p - e) with (Z.pos p) by lia.
    destruct (iter_shr_1 p (shr_record_of_loc m l) ltac:(lia)) as [Hq Hex].
    rewrite Hrec in *. repeat split; auto.
    intros -> Hmod. destruct (Hex ltac:(split; reflexivity) Hmod) as [Hr Hs].
    destruct (SpecFloat.iter_pos shr_1 p _) as [m' r' s']. simpl in *. subst. reflexivity.
  - exists (shr_record_of_loc m l).
    replace (Z.max e (fexp (Zdigits2 m + e))) with e by lia.
    rewrite Z.sub_diag, Z.div_1_r. repeat split; auto.
    intros -> _. reflexivity.
Qed.

Lemma round_nearest_even_bounds (m : Z) (l : location) :
  m <= round_nearest_even m l <= m + 1
  /\ (l = loc_Exact -> round_nearest_even m l = m).
Proof.
  destruct l as [|[]]; simpl; try (destruct (Z.even m)); split; try lia; auto; discriminate.
Qed.


(** What [binary_round_aux] computes: the mantissa is divided by the power of
    two that brings it to the exponent [fexp] asks for, and the quotient is
    kept or increased by one. *)
Lemma binary_round_aux_pack (sx : bool) (mx ex : Z) (lx : location) :
  0 <= mx ->
  let e1 := Z.max ex (fexp (Zdigits2 mx + ex)) in
  let m1 := mx / 2 ^ (e1 - ex) in
  exists m2,
    m1 <= m2 <= m1 + 1
    /\ (lx = loc_Exact -> mx mod 2 ^ (e1 - ex) = 0 -> m2 = m1)
    /\ m1 < 2 ^ 53
    /\ binary_round_aux prec emax sx mx ex lx = pack sx m2 e1.
Proof.
  intros Hmx e1 m1.
  destruct (shr_fexp_spec mx ex lx Hmx) as (mrs & Hshr & Hm & Hloc).
  fold e1 in Hshr, Hm, Hloc. fold m1 in Hm.
  assert (Hk : 0 <= e1 - ex) by lia.
  assert (Hpk : 0 < 2 ^ (e1 - ex)) by (apply Z.pow_pos_nonneg; lia).
  assert (Hm1 : 0 <= m1) by (apply Z.div_pos; lia).
  assert (Hm1' : m1 < 2 ^ 53).
  { destruct (Z.eq_dec mx 0) as [->|Hne]; [subst m1; rewrite Z.div_0_l by lia; lia|].
    pose proof (Zdigits2_bounds mx ltac:(lia)) as [_ Hhi].
    pose proof (Zdigits2_pos mx ltac:(lia)) as Hd.
    apply Z.div_lt_upper_bound; [lia|].
    rewrite <- Z.pow_add_r by lia.
    eapply Z.lt_le_trans; [exact Hhi|]. apply Z.pow_le_mono_r; [lia|].
    subst e1. rewrite fexp_unfold. lia. }
  set (m2 := round_nearest_even m1 (loc_of_shr_record mrs)).
  destruct (round_nearest_even_bounds m1 (loc_of_shr_record mrs)) as [Hb Hex].
  fold m2 in Hb, Hex.
  exists m2. split; [exact Hb|]. split; [|split; [exact Hm1'|]].
  { intros Hl Hmod. apply Hex. auto. }
  unfold binary_round_aux. rewrite Hshr, Hm. fold m2.
  destruct (shr_fexp_spec m2 e1 loc_Exact ltac:(lia)) as (mrs2 & Hshr2 & Hm2 & _).
  rewrite Hshr2.
  assert (He1 : -1074 <= e1) by (subst e1; rewrite fexp_unfold; lia).
  destruct (Z.eq_dec m2 0) as [H0|H0].
  { rewrite H0 in *. rewrite Z.div_0_l in Hm2
      by (apply Z.pow_nonzero; [lia|simpl; rewrite fexp_unfold; lia]).
    rewrite Hm2. reflexivity. }
  destruct (Z.eq_dec m2 (2 ^ 53)) as [H53|H53].
  { assert (Hd : Zdigits2 m2 = 54) by (rewrite H53; reflexivity).
    rewrite Hd in *. rewrite fexp_unfold in *.
    replace (Z.max e1 (Z.max (54 + e1 - 53) (-1074))) with (e1 + 1) in * by lia.
    replace (e1 + 1 - e1) with 1 in Hm2 by lia.
    rewrite Hm2, H53. change (2 ^ 53 / 2 ^ 1) with (Z.pos (2 ^ 52)).
    unfold pack. change (Z.pos (2 ^ 52)) with (2 ^ 52). simpl.
    change (emax - prec) with 971. reflexivity. }
  assert (Hd : Zdigits2 m2 <= 53) by (apply Zdigits2_le; lia).
  rewrite fexp_unfold in *.
  replace (Z.max e1 (Z.max (Zdigits2 m2 + e1 - 53) (-1074))) with e1 in * by lia.
  rewrite Z.sub_diag, Z.div_1_r in Hm2. rewrite Hm2.
  unfold pack. destruct m2 as [|p|p]; try lia.
  destruct (Z.eqb_spec (Z.pos p) (2 ^ 53)); [contradiction|].
  change (emax - prec) with 971. reflexivity.
Qed.

Lemma Zdigits2_mul_pow2 (m j : Z) :
  0 < m -> 0 <= j -> Zdigits2 (m * 2 ^ j) = Zdigits2 m + j.
Proof.
  intros Hm Hj. pose proof (Zdigits2_bounds m Hm) as [Hlo Hhi].
  pose proof (Zdigits2_pos m Hm) as Hd.
  assert (Hp : 0 < 2 ^ j) by (apply Z.pow_pos_nonneg; lia).
  apply Zdigits2_unique; [lia|].
  replace (Zdigits2 m + j - 1) with (Zdigits2 m - 1 + j) by lia.
  rewrite !Z.pow_add_r by lia. split; nia.
Qed.

Lemma pos_iter_xO (m d : positive) : Z.pos (Pos.iter xO m d) = Z.pos m * 2 ^ Z.pos d.
Proof.
  induction d as [|d IH] using Pos.peano_ind.
  - simpl. lia.
  - rewrite Pos.iter_succ, Pos2Z.inj_xO, IH, Pos2Z.inj_succ, Z.pow_succ_r by lia. lia.
Qed.

Lemma shl_align_spec (mx : positive) (ex ex' : Z) :
  snd (shl_align mx ex ex') = Z.min ex ex'
  /\ Z.pos (fst (shl_align mx ex ex')) = Z.pos mx * 2 ^ (ex - Z.min ex ex').
Proof.
  unfold shl_align. destruct (ex' - ex) as [|d|d] eqn:Hd; simpl.
  - replace (Z.min ex ex') with ex by lia. rewrite Z.sub_diag. simpl. lia.
  - replace (Z.min ex ex') with ex by lia. rewrite Z.sub_diag. simpl. lia.
  - replace (Z.min ex ex') with ex' by lia. split; [reflexivity|].
    rewrite pos_iter_xO. f_equal. f_equal. lia.
Qed.

(** What [binary_round] computes on the mantissa [mx] at exponent [ex]. *)
Lemma binary_round_pack (sx : bool) (mx : positive) (ex : Z) :
  let e1 := fexp (Z.pos (digits2_pos mx) + ex) in
  exists m2,
    binary_round prec emax sx mx ex = pack sx m2 e1
    /\ (e1 <= ex -> m2 = Z.pos mx * 2 ^ (ex - e1))
    /\ (ex <= e1 ->
        Z.pos mx / 2 ^ (e1 - ex) <= m2 <= Z.pos mx / 2 ^ (e1 - ex) + 1
        /\ (Z.pos mx mod 2 ^ (e1 - ex) = 0 -> m2 = Z.pos mx / 2 ^ (e1 - ex))).
Proof.
  intros e1. unfold binary_round. fold e1.
  destruct (shl_align_spec mx ex e1) as [Hez Hmz].
  destruct (shl_align mx ex e1) as [mz ez]. simpl in Hez, Hmz.
  assert (Hdig : Zdigits2 (Z.pos mz) + ez = Z.pos (digits2_pos mx) + ex).
  { rewrite Hmz, Zdigits2_mul_pow2 by lia. simpl. lia. }
  destruct (binary_round_aux_pack sx (Z.pos mz) ez loc_Exact ltac:(lia))
    as (m2 & Hb & Hexact & _ & Heq).
  rewrite Hdig in *. fold e1 in Hb, Hexact, Heq.
  replace (Z.max ez e1) with e1 in * by lia.
  exists m2. split; [exact Heq|]. split.
  - intros Hle. rewrite Z.min_r in Hez, Hmz by lia. subst ez.
    rewrite Z.sub_diag, Z.div_1_r in *. rewrite Hmz in *.
    apply Hexact; [reflexivity|]. apply Z.mod_1_r.
  - intros Hle. rewrite Z.min_l in Hez, Hmz by lia. subst ez.
    rewrite Z.sub_diag, Z.mul_1_r in Hmz. rewrite Hmz in *.
    split; [exact Hb|]. intros Hmod. apply Hexact; auto.
Qed.

(** In the normal range the rounded mantissa has 53 digits, or is [2^53]. *)
Lemma binary_round_normal (sx : bool) (mx : positive) (ex : Z) :
  -1021 <= Z.pos (digits2_pos mx) + ex ->
  exists m2,
    binary_round prec emax sx mx ex = pack sx m2 (Z.pos (digits2_pos mx) + ex - 53)
    /\ 2 ^ 52 <= m2 <= 2 ^ 53.
Proof.
  intros Hg. destruct (binary_round_pack sx mx ex) as (m2 & Heq & Hhi & Hlo).
  rewrite fexp_unfold in *.
  replace (Z.max (Z.pos (digits2_pos mx) + ex - 53) (-1074))
    with (Z.pos (digits2_pos mx) + ex - 53) in * by lia.
  set (d := Z.pos (digits2_pos mx)) in *.
  pose proof (digits2_pos_bounds mx) as [Hdlo Hdhi]. fold d in Hdlo, Hdhi.
  exists m2. split; [exact Heq|].
  destruct (Z.le_ge_cases (d + ex - 53) ex) as [Hc|Hc].
  - rewrite (Hhi Hc). replace (ex - (d + ex - 53)) with (53 - d) by lia.
    assert (Hp : 0 < 2 ^ (53 - d)) by (apply Z.pow_pos_nonneg; lia).
    replace (2 ^ 52) with (2 ^ (d - 1) * 2 ^ (53 - d))
      by (rewrite <- Z.pow_add_r by lia; f_equal; lia).
    replace (2 ^ 53) with (2 ^ d * 2 ^ (53 - d))
      by (rewrite <- Z.pow_add_r by lia; f_equal; lia).
    split; nia.
  - destruct (Hlo Hc) as [[Hl Hu] _].
    replace (d + ex - 53 - ex) with (d - 53) in * by lia.
    assert (Hp : 0 < 2 ^ (d - 53)) by (apply Z.pow_pos_nonneg; lia).
    assert (2 ^ 52 <= Z.pos mx / 2 ^ (d - 53)).
    { apply Z.div_le_lower_bound; [lia|]. rewrite <- Z.pow_add_r by lia.
      replace (d - 53 + 52) with (d - 1) by lia. exact Hdlo. }
    assert (Z.pos mx / 2 ^ (d - 53) < 2 ^ 53).
    { apply Z.div_lt_upper_bound; [lia|]. rewrite <- Z.pow_add_r by lia.
      replace (d - 53 + 53) with d by lia. exact Hdhi. }
    lia.
Qed.

(** *** Signs *)



Lemma pos_nonneg (x : spec_float) : pos x -> nonneg x.
Proof. destruct x as [[]|[]| |[] ? ?]; simpl; auto. Qed.

Lemma pack_nonneg (m e : Z) : nonneg (pack false m e).
Proof.
  unfold pack. destruct m; simpl; auto.
  case_ifs; simpl; auto.
Qed.

Lemma SFadd_nonneg (x y : spec_float) :
  nonneg x -> nonneg y -> nonneg (SF64add x y).
Proof.
  destruct x as [[]|[]| |[] mx ex], y as [[]|[]| |[] my ey]; simpl; try tauto.
  intros _ _.
  destruct (binary_round_pack false
              (fst (shl_align mx ex (Z.min ex ey)) + fst (shl_align my ey (Z.min ex ey)))
              (Z.min ex ey)) as (m2 & -> & _).
  apply pack_nonneg.
Qed.

Lemma SFdiv_nonneg (x y : spec_float) :
  nonneg x -> pos y ->
  nonneg (SF64div x y)
  \/ (x = S754_infinity false /\ y = S754_infinity false /\ SF64div x y = S754_nan).
Proof.
  destruct x as [[]|[]| |[] mx ex], y as [[]|[]| |[] my ey]; simpl; try tauto.
  intros _ _. left. unfold SF64div, SFdiv.
  destruct (SFdiv_core_binary prec emax (Z.pos mx) ex (Z.pos my) ey) as [[q e'] l] eqn:Hcore.
  assert (Hq : 0 <= q).
  { unfold SFdiv_core_binary in Hcore.
    destruct (Z.div_eucl _ (Z.pos my)) as [q' r'] eqn:Hdiv.
    injection Hcore as <- _ _.
    pose proof (Z_div_mod
      match ex - ey - Z.min (fexp (Zdigits2 (Z.pos mx) + ex - (Zdigits2 (Z.pos my) + ey))) (ex - ey) with
      | 0 => Z.pos mx
      | Z.pos _ => Z.shiftl (Z.pos mx)
           (ex - ey - Z.min (fexp (Zdigits2 (Z.pos mx) + ex - (Zdigits2 (Z.pos my) + ey))) (ex - ey))
      | Z.neg _ => 0
      end (Z.pos my) ltac:(lia)) as Hdm.
    rewrite Hdiv in Hdm. destruct Hdm as [Hdm Hr].
    assert (Hnum : 0 <= q' * Z.pos my + r').
    { rewrite (Z.mul_comm q'), <- Hdm.
      destruct (ex - ey - _); try lia. apply Z.shiftl_nonneg. lia. }
    nia. }
  destruct (binary_round_aux_pack false q e' l Hq) as (m2 & _ & _ & _ & ->).
  apply pack_nonneg.
Qed.

(** *** Validity *)

Lemma valid_finite_inv (s : bool) (m : positive) (e : Z) :
  valid_binary (S754_finite s m e) = true ->
  fexp (Z.pos (digits2_pos m) + e) = e /\ e <= 971.
Proof.
  simpl. unfold bounded, canonical_mantissa.
  intros H. apply andb_true_iff in H as [H1 H2].
  apply Z.eqb_eq in H1. apply Z.leb_le in H2. change (emax - prec) with 971 in H2. auto.
Qed.

Lemma valid_normal_mantissa (s : bool) (m : positive) (e : Z) :
  valid_binary (S754_finite s m e) = true -> -1074 < e ->
  2 ^ 52 <= Z.pos m < 2 ^ 53 /\ e <= 971.
Proof.
  intros Hv He. apply valid_finite_inv in Hv as [Hc Hle]. split; [|exact Hle].
  rewrite fexp_unfold in Hc.
  assert (Hd : Z.pos (digits2_pos m) = 53) by lia.
  pose proof (digits2_pos_bounds m) as Hb. rewrite Hd in Hb. exact Hb.
Qed.

Lemma pack_valid (sx : bool) (m e : Z) :
  2 ^ 52 <= m <= 2 ^ 53 -> -1074 <= e -> valid_binary (pack sx m e) = true.
Proof.
  intros Hm He. unfold pack. destruct m as [|p|p]; try lia.
  destruct (Z.eqb_spec (Z.pos p) (2 ^ 53)) as [E|NE].
  - destruct (Z.leb_spec (e + 1) 971); [|reflexivity].
    simpl. unfold bounded, canonical_mantissa.
    change (digits2_pos (2 ^ 52)) with 53%positive.
    rewrite fexp_unfold. apply andb_true_iff. split.
    + apply Z.eqb_eq. lia.
    + apply Z.leb_le. change (emax - prec) with 971. lia.
  - destruct (Z.leb_spec e 971); [|reflexivity].
    simpl. unfold bounded, canonical_mantissa.
    assert (Hd : Zdigits2 (Z.pos p) = 53) by (apply Zdigits2_unique; lia).
    simpl in Hd. rewrite Hd, fexp_unfold. apply andb_true_iff. split.
    + apply Z.eqb_eq. lia.
    + apply Z.leb_le. change (emax - prec) with 971. lia.
Qed.

(** *** Converting an [int] *)

Lemma SF_of_int_small (z : Z) :
  0 < z < 2 ^ 63 ->
  valid_binary (SF_of_int z) = true
  /\ exists m e, SF_of_int z = S754_finite false m e.
Proof.
  intros [Hlo Hhi]. destruct z as [|p|p]; try lia.
  unfold SF_of_int, binary_normalize.
  pose proof (Zdigits2_pos (Z.pos p) ltac:(lia)) as Hd.
  pose proof (Zdigits2_le (Z.pos p) 63 ltac:(lia) ltac:(lia)) as Hd'. simpl in Hd, Hd'.
  destruct (binary_round_normal false p 0 ltac:(lia)) as (m2 & -> & Hm2).
  split; [apply pack_valid; lia|].
  unfold pack. destruct m2 as [|q|q]; try lia.
  destruct (Z.eqb_spec (Z.pos q) (2 ^ 53)).
  - destruct (Z.leb_spec (Z.pos (digits2_pos p) + 0 - 53 + 1) 971); [eauto|lia].
  - destruct (Z.leb_spec (Z.pos (digits2_pos p) + 0 - 53) 971); [eauto|lia].
Qed.

(** *** The three operations of the RSI formula *)




Lemma pack_ge1 (m e : Z) : 2 ^ 52 <= m <= 2 ^ 53 -> -52 <= e -> ge1 (pack false m e).
Proof.
  intros Hm He. unfold pack. destruct m as [|p|p]; try lia.
  case_ifs; simpl; auto; lia.
Qed.

Lemma pack_le100 (m e : Z) :
  e <= -46 -> 0 <= m <= 25 * 2 ^ (2 - e) -> le100 (pack false m e).
Proof.
  intros He Hm. unfold pack. destruct m as [|p|p]; [exact I| |exact I].
  destruct (Z.eqb_spec (Z.pos p) (2 ^ 53)) as [E|NE].
  - destruct (Z.leb_spec (e + 1) 971); [|lia]. simpl.
    assert (e <> -46).
    { intros ->. change (25 * 2 ^ (2 - -46)) with (25 * 2 ^ 48) in Hm. lia. }
    split; [lia|].
    assert (2 ^ 48 <= 2 ^ (2 - (e + 1))) by (apply Z.pow_le_mono_r; lia).
    change (Z.pos (2 ^ 52)) with (16 * 2 ^ 48). lia.
  - destruct (Z.leb_spec e 971); [|lia]. simpl. lia.
Qed.

Lemma one_plus_nonneg (x : spec_float) : nonneg x -> ge1 (SF64add SF_1 x).
Proof.
  destruct x as [[]|[]| |[] mx ex]; simpl; try tauto; try lia.
  intros _.
  set (ez := Z.min (-52) ex).
  destruct (shl_align_spec (2 ^ 52) (-52) ez) as [_ H1].
  destruct (shl_align_spec mx ex ez) as [_ Hx].
  replace (Z.min (-52) ez) with ez in H1 by lia.
  set (a := fst (shl_align (2 ^ 52) (-52) ez)) in *.
  set (b := fst (shl_align mx ex ez)) in *.
  assert (Hab : 2 ^ (- ez) <= Z.pos (a + b)).
  { rewrite Pos2Z.inj_add, H1.
    change (Z.pos (2 ^ 52)) with (2 ^ 52). rewrite <- Z.pow_add_r by lia.
    replace (52 + (-52 - ez)) with (- ez) by lia. lia. }
  assert (Hd : - ez + 1 <= Zdigits2 (Z.pos (a + b))).
  { apply Zdigits2_ge; [lia|]. replace (- ez + 1 - 1) with (- ez) by lia. exact Hab. }
  simpl in Hd.
  destruct (binary_round_normal false (a + b) ez ltac:(lia)) as (m2 & -> & Hm2).
  apply pack_ge1; lia.
Qed.


Lemma new_location_0 (n : Z) : new_location n 0 = loc_Exact.
Proof. unfold new_location, new_location_even, new_location_odd. destruct (Z.even n); reflexivity. Qed.

Lemma div_100_le100 (my : positive) (ey : Z) :
  2 ^ 52 <= Z.pos my < 2 ^ 53 -> -52 <= ey <= 971 ->
  le100 (SF64div SF_100 (S754_finite false my ey)).
Proof.
  intros Hmy Hey.
  assert (Hdy : Zdigits2 (Z.pos my) = 53) by (apply Zdigits2_unique; lia).
  unfold SF64div, SFdiv, SF_100, SFdiv_core_binary.
  change (Zdigits2 (Z.pos (25 * 2 ^ 48))) with 53. rewrite Hdy.
  rewrite fexp_unfold.
  replace (Z.min (Z.max (53 + -46 - (53 + ey) - 53) (-1074)) (-46 - ey)) with (-99 - ey) by lia.
  replace (-46 - ey - (-99 - ey)) with 53 by lia.
  cbv iota. change (xorb false false) with false.
  change (IntDef.Z.shiftl (Z.pos (25 * 2 ^ 48)) 53) with (25 * 2 ^ 101).
  pose proof (Z_div_mod (25 * 2 ^ 101) (Z.pos my) ltac:(lia)) as Hdm.
  destruct (IntDef.Z.div_eucl (25 * 2 ^ 101) (Z.pos my)) as [q r].
  destruct Hdm as [Hdm Hr].
  assert (Hq : 0 <= q) by nia.
  set (e' := -99 - ey).
  destruct (binary_round_aux_pack false q e' (new_location (Z.pos my) r) Hq)
    as (m2 & Hb & Hexact & _ & ->).
  (* the quotient has at most 54 digits *)
  assert (Hq54 : q < 2 ^ 54).
  { assert (q * 2 ^ 52 <= 25 * 2 ^ 101) by nia.
    change (25 * 2 ^ 101) with (25 * 2 ^ 49 * 2 ^ 52) in H. lia. }
  assert (Hdq : Zdigits2 q <= 54) by (apply Zdigits2_le; lia).
  assert (Hdq0 : 0 <= Zdigits2 q) by (destruct q; simpl; lia).
  rewrite fexp_unfold in *.
  set (e1 := Z.max e' (Z.max (Zdigits2 q + e' - 53) (-1074))) in *.
  assert (He1 : e' <= e1 <= e' + 1) by lia.
  (* the value 100 / y is at most 100 *)
  assert (Hone : 2 ^ 101 <= 2 ^ (101 + ey) * Z.pos my).
  { destruct (Z.le_gt_cases 0 ey).
    - assert (2 ^ 101 <= 2 ^ (101 + ey)) by (apply Z.pow_le_mono_r; lia). nia.
    - assert (2 ^ (- ey) <= 2 ^ 52) by (apply Z.pow_le_mono_r; lia).
      assert (2 ^ (101 + ey) * 2 ^ (- ey) = 2 ^ 101)
        by (rewrite <- Z.pow_add_r by lia; f_equal; lia).
      assert (0 < 2 ^ (101 + ey)) by (apply Z.pow_pos_nonneg; lia).
      nia. }
  assert (HK : 25 * 2 ^ (2 - e1) * 2 ^ (e1 - e') = 25 * 2 ^ (101 + ey)).
  { rewrite <- Z.mul_assoc, <- Z.pow_add_r by lia. f_equal. f_equal. lia. }
  assert (Hpk : 0 < 2 ^ (e1 - e')) by (apply Z.pow_pos_nonneg; lia).
  assert (HqK : q <= 25 * 2 ^ (101 + ey)).
  { assert (0 < 2 ^ (101 + ey)) by (apply Z.pow_pos_nonneg; lia). nia. }
  apply pack_le100; [lia|]. split.
  { assert (0 <= q / 2 ^ (e1 - e')) by (apply Z.div_pos; lia). lia. }
  destruct (Z.eq_dec q (25 * 2 ^ (101 + ey))) as [Heq|Hne].
  - assert (Hr0 : r = 0) by nia.
    rewrite Hr0, new_location_0 in Hexact.
    assert (Hmod : q mod 2 ^ (e1 - e') = 0).
    { rewrite Heq, <- HK. apply Z.mod_mul. lia. }
    rewrite (Hexact eq_refl Hmod), Heq, <- HK, Z.div_mul by lia. lia.
  - assert (q / 2 ^ (e1 - e') < 25 * 2 ^ (2 - e1)).
    { apply Z.div_lt_upper_bound; [lia|]. rewrite Z.mul_comm, HK. lia. }
    lia.
Qed.


Lemma sub_100_le100 (z : spec_float) : le100 z -> le100 (SF64sub SF_100 z).
Proof.
  destruct z as [s|s| |[] mz ez]; simpl; try tauto.
  - intros _. split; [lia|]. reflexivity.
  - intros [He Hm].
    replace (Z.min (-46) ez) with ez by lia.
    destruct (shl_align_spec (25 * 2 ^ 48) (-46) ez) as [_ H1].
    destruct (shl_align_spec mz ez ez) as [_ H2].
    rewrite Z.min_r in H1 by lia. rewrite Z.min_id, Z.sub_diag, Z.mul_1_r in H2.
    set (a := fst (shl_align (25 * 2 ^ 48) (-46) ez)) in *.
    set (b := fst (shl_align mz ez ez)) in *.
    assert (Ha : Z.pos a = 25 * 2 ^ (2 - ez)).
    { rewrite H1. change (Z.pos (25 * 2 ^ 48)) with (25 * 2 ^ 48).
      rewrite <- Z.mul_assoc, <- Z.pow_add_r by lia. f_equal. f_equal. lia. }
    change (Z.pos_sub a b) with (Z.pos a - Z.pos b).
    destruct (Z.pos a - Z.pos b) as [|p|p] eqn:Hd; try lia; [exact I|].
    unfold binary_normalize.
    destruct (binary_round_pack false p ez) as (m2 & -> & Hhi & Hlo).
    assert (Hp : Z.pos p < 25 * 2 ^ (2 - ez)) by lia.
    assert (Hp7 : Z.pos p < 2 ^ (7 - ez)).
    { replace (7 - ez) with (5 + (2 - ez)) by lia. rewrite Z.pow_add_r by lia.
      assert (0 < 2 ^ (2 - ez)) by (apply Z.pow_pos_nonneg; lia).
      change (2 ^ 5) with 32. lia. }
    pose proof (Zdigits2_le (Z.pos p) (7 - ez) ltac:(lia) ltac:(lia)) as Hdig. simpl in Hdig.
    rewrite fexp_unfold in *.
    set (e1 := Z.max (Z.pos (digits2_pos p) + ez - 53) (-1074)) in *.
    assert (He1 : e1 <= -46) by lia.
    apply pack_le100; [exact He1|].
    destruct (Z.le_ge_cases e1 ez) as [Hc|Hc].
    + rewrite (Hhi Hc).
      assert (0 < 2 ^ (ez - e1)) by (apply Z.pow_pos_nonneg; lia).
      assert (2 ^ (2 - ez) * 2 ^ (ez - e1) = 2 ^ (2 - e1))
        by (rewrite <- Z.pow_add_r by lia; f_equal; lia).
      split; nia.
    + destruct (Hlo Hc) as [[Hl Hu] _].
      assert (Hpk : 0 < 2 ^ (e1 - ez)) by (apply Z.pow_pos_nonneg; lia).
      assert (2 ^ (2 - e1) * 2 ^ (e1 - ez) = 2 ^ (2 - ez))
        by (rewrite <- Z.pow_add_r by lia; f_equal; lia).
      assert (0 <= Z.pos p / 2 ^ (e1 - ez)) by (apply Z.div_pos; lia).
      assert (Z.pos p / 2 ^ (e1 - ez) < 25 * 2 ^ (2 - e1)).
      { apply Z.div_lt_upper_bound; [lia|]. nia. }
      lia.
Qed.

End Binary64.

(* ===================================================================== *)
(** * Comparisons *)
(* ===================================================================== *)

Section Comparisons.

Lemma SFcompare_antisym (x y : spec_float) :
  SFcompare y x = CompOpp <$> SFcompare x y.
Proof.
  destruct x as [sx|sx| |sx mx ex], y as [sy|sy| |sy my ey]; simpl;
    try reflexivity; try (destruct sx; reflexivity); try (destruct sy; reflexivity);
    try (destruct sx, sy; reflexivity).
  rewrite (Z.compare_antisym ex ey), !Pos.compare_cont_spec, (Pos.compare_antisym mx my).
  destruct sx, sy; simpl; try reflexivity;
    destruct (ex ?= ey); simpl; try reflexivity;
    destruct (mx ?= my)%positive; reflexivity.
Qed.

Lemma float_ltb_asym (a b : float) :
  PrimFloat.ltb a b = true -> PrimFloat.ltb b a = false.
Proof.
  rewrite !FloatAxioms.ltb_spec. unfold SFltb.
  rewrite (SFcompare_antisym (Prim2SF a) (Prim2SF b)).
  destruct (SFcompare (Prim2SF a) (Prim2SF b)) as [[]|]; simpl; congruence.
Qed.

Lemma float_eqb_not_ltb (a b : float) :
  PrimFloat.eqb a b = true -> PrimFloat.ltb a b = false /\ PrimFloat.ltb b a = false.
Proof.
  rewrite FloatAxioms.eqb_spec, !FloatAxioms.ltb_spec. unfold SFeqb, SFltb.
  rewrite (SFcompare_antisym (Prim2SF a) (Prim2SF b)).
  destruct (SFcompare (Prim2SF a) (Prim2SF b)) as [[]|]; simpl; intuition congruence.
Qed.

Lemma is_cmp_exclusive (c c' : comparison) (o : option comparison) :
  c <> c' -> is_cmp c o = true -> is_cmp c' o = false.
Proof. destruct o as [[]|], c, c'; simpl; congruence. Qed.

(** [<] is asymmetric on every pair of numbers, [nan] included. *)
Lemma lt_asym (x y : num) : lt x y = true -> lt y x = false.
Proof.
  destruct x as [a|a], y as [b|b]; simpl.
  - rewrite Z.ltb_lt, Z.ltb_ge. lia.
  - now apply is_cmp_exclusive.
  - now apply is_cmp_exclusive.
  - apply float_ltb_asym.
Qed.

(** Equal numbers are not ordered. *)
Lemma eq_not_lt (x y : num) : eq x y = true -> lt x y = false /\ lt y x = false.
Proof.
  destruct x as [a|a], y as [b|b]; simpl.
  - rewrite Z.eqb_eq, !Z.ltb_ge. lia.
  - intros H; split; now apply (is_cmp_exclusive Eq).
  - intros H; split; now apply (is_cmp_exclusive Eq).
  - apply float_eqb_not_ltb.
Qed.

(** The exact comparison of an [int] with a [float] is monotone in the [int]. *)
Lemma Z_SF_compare_Lt_mono (a b : Z) (x : spec_float) :
  a <= b -> Z_SF_compare b x = Some Lt -> Z_SF_compare a x = Some Lt.
Proof.
  intros Hab. destruct x as [s|s| |s m e]; simpl; try congruence.
  - intros [= H]. f_equal. rewrite Z.compare_lt_iff in *. lia.
  - destruct e as [|k|k]; intros [= H]; f_equal; rewrite Z.compare_lt_iff in *; try lia.
    assert (0 < 2 ^ Z.pos k) by (apply Z.pow_pos_nonneg; lia). nia.
Qed.

(** A number above 70 is not below 30. *)
Lemma gt_70_not_lt_30 (x : num) : gt x (Int 70) = true -> lt x (Int 30) = false.
Proof.
  destruct x as [a|a]; unfold gt; simpl.
  - rewrite Z.ltb_lt, Z.ltb_ge. lia.
  - unfold int_float_compare. intros H.
    assert (H70 : Z_SF_compare 70 (Prim2SF a) = Some Lt)
      by (destruct (Z_SF_compare 70 (Prim2SF a)) as [[]|]; simpl in H; congruence).
    rewrite (Z_SF_compare_Lt_mono 30 70 _ ltac:(lia) H70). reflexivity.
Qed.

End Comparisons.

(* ===================================================================== *)
(** * Lists of closes *)
(* ===================================================================== *)

Lemma successive_differences_length (closes : list float) :
  length (successive_differences closes) = (length closes - 1)%nat.
Proof.
  induction closes as [|a [|b rest] IH]; try reflexivity.
  change (S (length (successive_differences (b :: rest))) = (S (S (length rest)) - 1)%nat).
  rewrite IH. simpl. lia.
Qed.

Lemma deltas_cons (a b : float) (rest : list float) :
  deltas (a :: b :: rest) = PrimFloat.sub b a :: deltas (b :: rest).
Proof.
  unfold deltas.
  replace (length (a :: b :: rest) - 1)%nat with (S (length rest)) by (simpl; lia).
  replace (length (b :: rest) - 1)%nat with (length rest) by (simpl; lia).
  change (seq 1 (S (length rest))) with (1%nat :: seq 2 (length rest)).
  rewrite map_cons. f_equal.
  rewrite <- (seq_shift (length rest) 1), map_map.
  apply map_ext_in. intros i Hi. apply in_seq in Hi.
  destruct i as [|i]; [lia|]. simpl. rewrite Nat.sub_0_r. reflexivity.
Qed.

(** The comprehension over indices computes the successive differences. *)
Lemma deltas_successive_differences (closes : list float) :
  deltas closes = successive_differences closes.
Proof.
  induction closes as [|a [|b rest] IH]; try reflexivity.
  rewrite deltas_cons, IH. reflexivity.
Qed.

Lemma slice_from_last_n {A} (n : Z) (l : list A) :
  1 <= n -> slice_from (- n) l = last_n (Z.to_nat n) l.
Proof.
  intros Hn. unfold slice_from, last_n, len.
  destruct (Z.ltb_spec (- n) 0); [|lia]. f_equal. lia.
Qed.

Lemma rises_by_one_differences (closes : list float) :
  rises_by_one closes ->
  successive_differences closes = replicate (length closes - 1) 1%float.
Proof.
  unfold rises_by_one. rewrite <- successive_differences_length.
  induction (successive_differences closes) as [|d ds IH]; [reflexivity|].
  intros H. apply Forall_cons in H as [-> H]. simpl. f_equal. auto.
Qed.

Lemma calculate_rsi_short_50 (prices : list Candle) (period : Z) :
  len prices < period + 1 ->
  calculate_rsi prices period = Ok (Float 50%float).
Proof.
  intros H. unfold calculate_rsi.
  destruct (Z.ltb_spec (len prices) (period + 1)); [reflexivity|lia].
Qed.

Lemma calculate_rsi_long (prices : list Candle) (period : Z) :
  period + 1 <= len prices ->
  calculate_rsi prices period =
    avg_gain ← average_gain prices period;
    avg_loss ← average_loss prices period;
    if eq avg_loss (Int 0) then Ok (Float 100%float)
    else
      rs ← truediv avg_gain avg_loss;
      one_plus_rs ← add (Int 1) rs;
      quotient ← truediv (Int 100) one_plus_rs;
      sub (Int 100) quotient.
Proof.
  intros H. unfold calculate_rsi, average_gain, average_loss.
  destruct (Z.ltb_spec (len prices) (period + 1)); [lia|].
  destruct (sum (map gain _)) as [sg|]; [|reflexivity]. simpl.
  destruct (truediv sg (Int period)) as [ag|]; [|reflexivity]. simpl.
  destruct (sum (map loss _)) as [sl|]; reflexivity.
Qed.

Lemma float_50_is_not_100 : Ok (Float 50%float) <> Ok (Float 100%float).
Proof.
  intros H.
  apply (f_equal (fun r => match r with
                           | Ok (Float x) => PrimFloat.eqb x 50%float
                           | _ => false
                           end)) in H.
  vm_compute in H. discriminate.
Qed.

(* ===================================================================== *)
(** * The arithmetic of [calculate_rsi] *)
(* ===================================================================== *)

Lemma Prim2SF_0 : Prim2SF 0 = S754_zero false. Proof. reflexivity. Qed.
Lemma Prim2SF_1 : Prim2SF 1 = SF_1. Proof. reflexivity. Qed.
Lemma Prim2SF_100 : Prim2SF 100 = SF_100. Proof. reflexivity. Qed.

(** ** Comparisons with the [int] 0 *)

Lemma Z_SF_compare_0 (x : spec_float) :
  Z_SF_compare 0 x =
    match x with
    | S754_nan => None
    | S754_zero _ => Some Eq
    | S754_infinity s | S754_finite s _ _ => Some (if s then Gt else Lt)
    end.
Proof.
  destruct x as [s|s| |s m e]; try reflexivity.
  unfold Z_SF_compare.
  assert (Hm : forall k, 0 < 2 ^ k -> (0 ?= cond_Zopp s (Z.pos m) * 2 ^ k) = if s then Gt else Lt).
  { intros k Hk. destruct s; simpl cond_Zopp.
    - apply Z.compare_gt_iff. nia.
    - apply Z.compare_lt_iff. nia. }
  destruct e as [|k|k].
  - f_equal. apply Hm. reflexivity.
  - f_equal. apply Hm. apply Z.pow_pos_nonneg; lia.
  - f_equal. rewrite Z.mul_0_l. destruct s; reflexivity.
Qed.

Lemma gt_0_pos (d : float) : gt (Float d) (Int 0) = true <-> pos (Prim2SF d).
Proof.
  unfold gt, lt, int_float_compare. rewrite Z_SF_compare_0.
  destruct (Prim2SF d) as [s|[]| |[] m e]; simpl; intuition congruence.
Qed.

Lemma lt_0_neg (d : float) : lt (Float d) (Int 0) = true <-> pos (SFopp (Prim2SF d)).
Proof.
  unfold lt, int_float_compare. rewrite Z_SF_compare_0.
  destruct (Prim2SF d) as [s|[]| |[] m e]; simpl; intuition congruence.
Qed.

Lemma eq_0_eqb (l : float) : eq (Float l) (Int 0) = PrimFloat.eqb l 0.
Proof.
  unfold eq, int_float_compare.
  rewrite Z_SF_compare_0, FloatAxioms.eqb_spec, Prim2SF_0.
  destruct (Prim2SF l) as [s|[]| |[] m e]; reflexivity.
Qed.

Lemma eqb_0_false_pos (l : float) :
  nonneg (Prim2SF l) -> PrimFloat.eqb l 0 = false -> pos (Prim2SF l).
Proof.
  rewrite FloatAxioms.eqb_spec, Prim2SF_0.
  destruct (Prim2SF l) as [[]|[]| |[] m e]; simpl; auto; discriminate.
Qed.

Lemma le100_range (r : float) :
  le100 (Prim2SF r) -> le (Int 0) (Float r) = true /\ le (Float r) (Int 100) = true.
Proof.
  unfold le, int_float_compare. rewrite Z_SF_compare_0.
  destruct (Prim2SF r) as [s|s| |[] m e]; simpl; try tauto.
  intros [He Hm]. split; [reflexivity|].
  destruct e as [|k|k]; try lia.
  replace (2 - Z.neg k) with (2 + Z.pos k) in Hm by lia.
  rewrite Z.pow_add_r in Hm by lia. change (2 ^ 2) with 4 in Hm.
  destruct (Z.compare_spec (100 * 2 ^ Z.pos k) (Z.pos m)) as [H|H|H]; try reflexivity.
  exfalso. lia.
Qed.

(** ** The RSI formula on a non-negative gain and a positive loss *)

Lemma ge1_nonzero (y : float) : ge1 (Prim2SF y) -> PrimFloat.eqb y 0 = false.
Proof.
  rewrite FloatAxioms.eqb_spec, Prim2SF_0.
  destruct (Prim2SF y) as [s|[]| |[] m e]; simpl; auto; tauto.
Qed.

Lemma ge1_div_100 (y : float) : ge1 (Prim2SF y) -> le100 (Prim2SF (100 / y)).
Proof.
  intros Hy. rewrite FloatAxioms.div_spec, Prim2SF_100.
  pose proof (FloatAxioms.Prim2SF_valid y) as Hv.
  destruct (Prim2SF y) as [s|[]| |[] m e]; simpl in Hy; try tauto; try exact I.
  destruct (valid_normal_mantissa _ _ _ Hv ltac:(lia)) as [Hm He].
  apply div_100_le100; lia.
Qed.

Lemma rsi_formula_range (g l : float) :
  nonneg (Prim2SF g) -> pos (Prim2SF l) ->
  PrimFloat.eqb (1 + g / l) 0 = false
  /\ (le100 (Prim2SF (100 - 100 / (1 + g / l)))
      \/ (Prim2SF g = S754_infinity false /\ Prim2SF l = S754_infinity false
          /\ Prim2SF (100 - 100 / (1 + g / l)) = S754_nan)).
Proof.
  intros Hg Hl.
  destruct (SFdiv_nonneg _ _ Hg Hl) as [Hrs|(Eg & El & Hnan)];
    rewrite <- FloatAxioms.div_spec in *.
  - assert (Hy : ge1 (Prim2SF (1 + g / l))).
    { rewrite FloatAxioms.add_spec, Prim2SF_1. apply one_plus_nonneg, Hrs. }
    split; [apply ge1_nonzero, Hy|]. left.
    rewrite FloatAxioms.sub_spec, Prim2SF_100. apply sub_100_le100.
    apply ge1_div_100, Hy.
  - assert (Hy : Prim2SF (1 + g / l) = S754_nan).
    { rewrite FloatAxioms.add_spec, Hnan. reflexivity. }
    split.
    + rewrite FloatAxioms.eqb_spec, Hy. reflexivity.
    + right. repeat split; auto.
      rewrite FloatAxioms.sub_spec, FloatAxioms.div_spec, Hy, Prim2SF_100. reflexivity.
Qed.

(** ** Sums of gains and losses *)


Lemma float_add_0_r (a : float) : nonneg (Prim2SF a) -> (a + 0)%float = a.
Proof.
  intros Ha. apply Prim2SF_inj. rewrite FloatAxioms.add_spec, Prim2SF_0.
  destruct (Prim2SF a) as [[]|[]| |[] m e]; simpl in *; tauto.
Qed.

Lemma float_add_nonneg (a b : float) :
  nonneg (Prim2SF a) -> nonneg (Prim2SF b) -> nonneg (Prim2SF (a + b)).
Proof. intros Ha Hb. rewrite FloatAxioms.add_spec. apply SFadd_nonneg; assumption. Qed.


Lemma bind_Ok {A B} (a : A) (k : A -> result B) : (Ok a ≫= k) = k a.
Proof. reflexivity. Qed.

Lemma fmap_Ok {A B} (a : A) (k : A -> B) : (k <$> Ok a) = Ok (k a).
Proof. reflexivity. Qed.

Lemma truediv_float_float (a b : float) :
  truediv (Float a) (Float b) = Float <$> float_div a b.
Proof. reflexivity. Qed.

Lemma truediv_100_float (b : float) :
  truediv (Int 100) (Float b) = Float <$> float_div 100 b.
Proof. reflexivity. Qed.

Lemma add_1_float (b : float) : add (Int 1) (Float b) = Ok (Float (1 + b)).
Proof. reflexivity. Qed.

Lemma sub_100_float (q : float) : sub (Int 100) (Float q) = Ok (Float (100 - q)).
Proof. reflexivity. Qed.

Lemma float_div_nonzero (a b : float) :
  PrimFloat.eqb b 0 = false -> float_div a b = Ok (a / b)%float.
Proof. unfold float_div. intros ->. reflexivity. Qed.

Lemma sum_from_cons (acc x : num) (l : list num) :
  sum_from acc (x :: l) = add acc x ≫= fun acc' => sum_from acc' l.
Proof. reflexivity. Qed.

Lemma add_float_float (a b : float) : add (Float a) (Float b) = Ok (Float (a + b)).
Proof. reflexivity. Qed.

Lemma add_float_0 (a : float) : add (Float a) (Int 0) = Ok (Float (a + 0)).
Proof. reflexivity. Qed.

Lemma add_0_float (b : float) : add (Int 0) (Float b) = Ok (Float (0 + b)).
Proof. reflexivity. Qed.

Lemma item_unfold (test : float -> bool) (f : float -> float) (d : float) :
  item test f d = if test d then Float (f d) else Int 0.
Proof. reflexivity. Qed.

Section Totals.

Variable test : float -> bool.
Variable f : float -> float.
(** [f d] is positive whenever it is taken. *)
Hypothesis f_pos : forall d, test d = true -> pos (Prim2SF (f d)).

Lemma sum_from_items (ds : list float) (a : float) :
  nonneg (Prim2SF a) ->
  sum_from (Float a) (map (item test f) ds)
    = Ok (Float (fold_left PrimFloat.add (map f (List.filter test ds)) a))
  /\ nonneg (Prim2SF (fold_left PrimFloat.add (map f (List.filter test ds)) a)).
Proof.
  revert a. induction ds as [|d ds IH]; intros a Ha; [simpl; auto|].
  rewrite map_cons, sum_from_cons, item_unfold. simpl List.filter.
  destruct (test d) eqn:Ht.
  - rewrite add_float_float. apply IH.
    apply float_add_nonneg; [assumption|]. apply pos_nonneg, f_pos, Ht.
  - rewrite add_float_0, float_add_0_r by assumption. apply IH, Ha.
Qed.

Lemma sum_items (ds : list float) :
  sum (map (item test f) ds)
    = Ok (match List.filter test ds with
          | [] => Int 0
          | _ => Float (fsum (map f (List.filter test ds)))
          end)
  /\ nonneg (Prim2SF (fsum (map f (List.filter test ds)))).
Proof.
  unfold sum, fsum. induction ds as [|d ds IH]; [split; [reflexivity|exact I]|].
  rewrite map_cons, sum_from_cons, item_unfold. simpl List.filter.
  destruct (test d) eqn:Ht.
  - rewrite add_0_float. apply sum_from_items.
    apply float_add_nonneg; [exact I|]. apply pos_nonneg, f_pos, Ht.
  - exact IH.
Qed.

End Totals.

(** ** Averages *)

Lemma float_of_int_small (z : Z) :
  0 < z < 2 ^ 63 ->
  float_of_int z = Ok (float_of_Z z)
  /\ exists m e, Prim2SF (float_of_Z z) = S754_finite false m e.
Proof.
  intros Hz. destruct (SF_of_int_small z Hz) as (Hv & m & e & Hsf).
  unfold float_of_int, float_of_Z. split.
  - rewrite Hsf. reflexivity.
  - exists m, e. rewrite Prim2SF_SF2Prim by exact Hv. exact Hsf.
Qed.

Lemma truediv_total (total : num) (s : float) (period : Z) :
  0 < period < 2 ^ 63 ->
  (total = Int 0 /\ s = 0%float) \/ total = Float s ->
  nonneg (Prim2SF s) ->
  truediv total (Int period) = Ok (Float (s / float_of_Z period))
  /\ nonneg (Prim2SF (s / float_of_Z period)).
Proof.
  intros Hp Htot Hs.
  destruct (float_of_int_small period Hp) as (Hconv & m & e & Hfp).
  assert (Hnn : nonneg (Prim2SF (s / float_of_Z period))).
  { rewrite FloatAxioms.div_spec, Hfp.
    destruct (SFdiv_nonneg (Prim2SF s) (S754_finite false m e) Hs I) as [H|(_ & H & _)];
      [exact H|discriminate]. }
  split; [|exact Hnn].
  destruct Htot as [[-> ->]| ->].
  - unfold truediv, int_true_divide.
    destruct (Z.eqb_spec period 0); [lia|].
    destruct period as [|p|p]; try lia. simpl.
    f_equal. f_equal. apply Prim2SF_inj.
    rewrite FloatAxioms.div_spec, Hfp. reflexivity.
  - unfold truediv. rewrite Hconv. simpl. unfold float_div.
    rewrite FloatAxioms.eqb_spec, Hfp, Prim2SF_0. reflexivity.
Qed.

(** ** The value of [calculate_rsi] *)


Section RSI.

Variable prices : list Candle.
Variable period : Z.
Hypothesis period_range : 1 <= period < 2 ^ 63.

Let ds : list float := last_n (Z.to_nat period) (successive_differences (map close prices)).
Let avg_gain : float := (fsum (List.filter is_positive ds) / float_of_Z period)%float.
Let avg_loss : float :=
  (fsum (map PrimFloat.abs (List.filter is_negative ds)) / float_of_Z period)%float.

Lemma average_gain_value :
  average_gain prices period = Ok (Float avg_gain) /\ nonneg (Prim2SF avg_gain).
Proof.
  unfold average_gain.
  rewrite deltas_successive_differences, slice_from_last_n by lia. fold ds.
  destruct (sum_items is_positive (fun d => d)
              (fun d H => proj1 (gt_0_pos d) H) ds) as [Hsum Hnn].
  change (map gain ds) with (map (item is_positive (fun d => d)) ds).
  rewrite Hsum, map_id in *. simpl.
  apply truediv_total; [lia| |exact Hnn].
  destruct (List.filter is_positive ds); [left|right]; auto.
Qed.

Lemma average_loss_value :
  average_loss prices period = Ok (Float avg_loss) /\ nonneg (Prim2SF avg_loss).
Proof.
  unfold average_loss.
  rewrite deltas_successive_differences, slice_from_last_n by lia. fold ds.
  assert (Hopp : forall d, is_negative d = true -> pos (Prim2SF (- d))).
  { intros d H. rewrite FloatAxioms.opp_spec. apply lt_0_neg, H. }
  destruct (sum_items is_negative PrimFloat.opp Hopp ds) as [Hsum Hnn].
  change (map loss ds) with (map (item is_negative PrimFloat.opp) ds).
  assert (Habs : map PrimFloat.opp (List.filter is_negative ds)
                 = map PrimFloat.abs (List.filter is_negative ds)).
  { apply map_ext_in. intros d Hd. apply filter_In in Hd as [_ Hd].
    apply Prim2SF_inj. rewrite FloatAxioms.opp_spec, FloatAxioms.abs_spec.
    apply lt_0_neg in Hd.
    destruct (Prim2SF d) as [[]|[]| |[] m e]; simpl in *; tauto. }
  rewrite Hsum, Habs in *. simpl.
  apply truediv_total; [lia| |exact Hnn].
  destruct (List.filter is_negative ds); [left|right]; auto.
Qed.

Lemma calculate_rsi_value :
  period + 1 <= len prices ->
  calculate_rsi prices period = Ok (Float (rsi_of_averages avg_gain avg_loss)).
Proof.
  intros Hlen. rewrite calculate_rsi_long by exact Hlen.
  destruct average_gain_value as [-> Hg]. destruct average_loss_value as [-> Hl].
  rewrite !bind_Ok, eq_0_eqb. unfold rsi_of_averages.
  destruct (PrimFloat.eqb avg_loss 0) eqn:Hz; [reflexivity|].
  destruct (rsi_formula_range avg_gain avg_loss Hg (eqb_0_false_pos _ Hl Hz)) as [Hy _].
  rewrite truediv_float_float, (float_div_nonzero _ _ Hz), fmap_Ok, bind_Ok.
  rewrite add_1_float, bind_Ok.
  rewrite truediv_100_float, (float_div_nonzero _ _ Hy), fmap_Ok, bind_Ok.
  apply sub_100_float.
Qed.

End RSI.

(** ** The value of [calculate_sma] *)

Lemma sum_from_floats (xs : list float) (a : float) :
  sum_from (Float a) (map Float xs) = Ok (Float (fold_left PrimFloat.add xs a)).
Proof.
  revert a. induction xs as [|x xs IH]; intros a; [reflexivity|].
  rewrite map_cons, sum_from_cons, add_float_float, bind_Ok. apply IH.
Qed.

Lemma sum_floats (x : float) (xs : list float) :
  sum (map Float (x :: xs)) = Ok (Float (fsum (x :: xs))).
Proof.
  unfold sum, fsum. rewrite map_cons, sum_from_cons, add_0_float, bind_Ok.
  exact (sum_from_floats xs (0 + x)).
Qed.

Lemma truediv_float_int (s : float) (period : Z) :
  0 < period < 2 ^ 63 ->
  truediv (Float s) (Int period) = Ok (Float (s / float_of_Z period)).
Proof.
  intros Hp. destruct (float_of_int_small period Hp) as (Hconv & m & e & Hfp).
  unfold truediv. rewrite Hconv, bind_Ok, float_div_nonzero; [reflexivity|].
  rewrite FloatAxioms.eqb_spec, Hfp, Prim2SF_0. reflexivity.
Qed.

Lemma last_n_length {A} (n : nat) (l : list A) :
  (n <= length l)%nat -> length (last_n n l) = n.
Proof. intros H. unfold last_n. rewrite length_drop. lia. Qed.

Lemma calculate_sma_short (prices : list Candle) (period : Z) :
  len prices < period -> calculate_sma prices period = Ok (Int 0).
Proof.
  intros H. unfold calculate_sma.
  destruct (Z.ltb_spec (len prices) period); [reflexivity|lia].
Qed.

Lemma calculate_sma_value (prices : list Candle) (period : Z) :
  1 <= period < 2 ^ 63 -> period <= len prices ->
  calculate_sma prices period
    = Ok (Float (mean (map close (last_n (Z.to_nat period) prices)))).
Proof.
  intros Hp Hlen. unfold calculate_sma, mean.
  destruct (Z.ltb_spec (len prices) period); [lia|].
  rewrite slice_from_last_n by lia.
  assert (Hn : length (map close (last_n (Z.to_nat period) prices)) = Z.to_nat period)
    by (rewrite length_map; apply last_n_length; unfold len in Hlen; lia).
  unfold len. rewrite Hn, Z2Nat.id by lia.
  destruct (map close (last_n (Z.to_nat period) prices)) as [|x xs];
    [simpl in Hn; lia|].
  rewrite sum_floats, bind_Ok. apply truediv_float_int. lia.
Qed.

(** ** The range of [calculate_rsi] *)

Lemma range_of_50_and_100 : le100 (Prim2SF 50) /\ le100 (Prim2SF 100).
Proof. split; vm_compute; split; discriminate. Qed.

Lemma is_nan_of_SF (f : float) : Prim2SF f = S754_nan -> PrimFloat.is_nan f = true.
Proof.
  intros H. unfold PrimFloat.is_nan. rewrite FloatAxioms.eqb_spec, H. reflexivity.
Qed.

Lemma infinity_of_SF (f : float) : Prim2SF f = S754_infinity false -> f = infinity.
Proof. intros H. apply Prim2SF_inj. rewrite H. reflexivity. Qed.

(** For a period of at least 1, [calculate_rsi] always returns a float; it is
    between 0 and 100, or it is [nan] and both averages are [+infinity]. *)
Lemma calculate_rsi_cases (prices : list Candle) (period : Z) :
  1 <= period < 2 ^ 63 ->
  exists f,
    calculate_rsi prices period = Ok (Float f)
    /\ (le100 (Prim2SF f)
        \/ (average_gain prices period = Ok (Float infinity)
            /\ average_loss prices period = Ok (Float infinity)
            /\ Prim2SF f = S754_nan)).
Proof.
  intros Hp. destruct range_of_50_and_100 as [H50 H100].
  destruct (Z.lt_ge_cases (len prices) (period + 1)) as [Hshort|Hlong].
  - exists 50%float. split; [apply calculate_rsi_short_50, Hshort|left; exact H50].
  - destruct (average_gain_value prices period Hp) as [Hg Hgn].
    destruct (average_loss_value prices period Hp) as [Hl Hln].
    rewrite (calculate_rsi_value prices period Hp Hlong), Hg, Hl.
    set (g := (fsum (List.filter is_positive _) / float_of_Z period)%float) in *.
    set (l := (fsum (map PrimFloat.abs _) / float_of_Z period)%float) in *.
    exists (rsi_of_averages g l). split; [reflexivity|]. unfold rsi_of_averages.
    destruct (PrimFloat.eqb l 0) eqn:Hz; [left; exact H100|].
    destruct (rsi_formula_range g l Hgn (eqb_0_false_pos _ Hln Hz))
      as [_ [Hr|(Eg & El & Hnan)]]; [left; exact Hr|right].
    rewrite (infinity_of_SF _ Eg), (infinity_of_SF _ El) in *. auto.
Qed.

(** When both averages have overflowed, the quotient [inf / inf] is [nan],
    and so is the result. *)
Lemma calculate_rsi_both_overflow (prices : list Candle) (period : Z) :
  period + 1 <= len prices ->
  average_gain prices period = Ok (Float infinity) ->
  average_loss prices period = Ok (Float infinity) ->
  calculate_rsi prices period = Ok (Float nan).
Proof.
  intros Hlen Hg Hl. rewrite calculate_rsi_long by exact Hlen.
  rewrite Hg, Hl. reflexivity.
Qed.

Lemma is_nan_of_result (r : result num) (f : float) :
  r = Ok (Float f) -> r = Ok (Float nan) -> PrimFloat.is_nan f = true.
Proof.
  intros Hf Hnan. rewrite Hf in Hnan.
  apply (f_equal (fun r => match r with
                           | Ok (Float x) => PrimFloat.is_nan x
                           | _ => false
                           end)) in Hnan.
  exact Hnan.
Qed.

Lemma default_period_in_range : 1 <= 14 < 2 ^ 63.
Proof. split; [lia|reflexivity]. Qed.

(** ** The time stamp *)

Lemma matches_app (p1 p2 s1 s2 : string) :
  matches p1 s1 = true -> matches p2 s2 = true -> matches (p1 +:+ p2) (s1 +:+ s2) = true.
Proof.
  revert s1. induction p1 as [|c p1 IH]; intros [|d s1]; simpl; try discriminate; auto.
  intros H. apply andb_true_iff in H as [H1 H2]. rewrite H1. simpl. auto.
Qed.

Lemma pretty_N_go_render (k : nat) (x : N) (s : string) :
  (x < 10 ^ N.of_nat k)%N -> pretty_N_go x s = render k x s.
Proof.
  revert x s. induction k as [|k IH]; intros x s Hx.
  - simpl in *. replace x with 0%N by lia. apply pretty_N_go_0.
  - cbn [render]. destruct (N.eqb_spec x 0) as [->|Hne]; [apply pretty_N_go_0|].
    rewrite pretty_N_go_step by lia. apply IH.
    rewrite Nat2N.inj_succ, N.pow_succ_r' in Hx.
    apply N.Div0.div_lt_upper_bound. lia.
Qed.

Lemma is_digit_pretty_N_char (x : N) : is_digit (pretty_N_char x) = true.
Proof. unfold pretty_N_char. repeat case_match; reflexivity. Qed.

Lemma zero_pad_4_digits (n : Z) : 0 <= n <= 9999 -> matches "dddd" (zero_pad 4 n) = true.
Proof.
  intros Hn. unfold zero_pad, pretty, pretty_N.
  destruct (decide (Z.to_N n = 0%N)) as [_|_]; [reflexivity|].
  rewrite (pretty_N_go_render 4) by (change (10 ^ N.of_nat 4)%N with 10000%N; lia).
  cbn [render]. repeat case_match; simpl; rewrite ?is_digit_pretty_N_char; reflexivity.
Qed.

Lemma zero_pad_2_digits (n : Z) : 0 <= n <= 99 -> matches "dd" (zero_pad 2 n) = true.
Proof.
  intros Hn. unfold zero_pad, pretty, pretty_N.
  destruct (decide (Z.to_N n = 0%N)) as [_|_]; [reflexivity|].
  rewrite (pretty_N_go_render 2) by (change (10 ^ N.of_nat 2)%N with 100%N; lia).
  cbn [render]. repeat case_match; simpl; rewrite ?is_digit_pretty_N_char; reflexivity.
Qed.

(** The time stamp the program formats has the shape YYYY-MM-DD HH:MM:SS. *)
Lemma strftime_Ymd_HMS_format (dt : datetime) :
  four_digit_year dt -> matches "dddd-dd-dd dd:dd:dd" (strftime_Ymd_HMS dt) = true.
Proof.
  intros (Hy & Hmo & Hd & Hh & Hmi & Hs). unfold strftime_Ymd_HMS.
  change "dddd-dd-dd dd:dd:dd"
    with ("dddd" +:+ "-" +:+ "dd" +:+ "-" +:+ "dd" +:+ " " +:+ "dd" +:+ ":" +:+ "dd" +:+ ":" +:+ "dd").
  repeat (apply matches_app; [first [apply zero_pad_4_digits; lia
                                    |apply zero_pad_2_digits; lia
                                    |reflexivity]|]).
  apply zero_pad_2_digits; lia.
Qed.

(* ===================================================================== *)
(** * The classification block *)
(* ===================================================================== *)

Section Classification.

Variables current_price rsi sma_20 sma_50 : num.

Lemma votes_counts :
  votes rsi sma_20 sma_50 = (buy_count rsi sma_20 sma_50, sell_count rsi sma_20 sma_50).
Proof.
  unfold votes, buy_count, sell_count.
  destruct (lt rsi (Int 30)), (gt rsi (Int 70)), (gt sma_20 sma_50), (lt sma_20 sma_50);
    reflexivity.
Qed.

Lemma no_vote_on_equality :
  eq sma_20 sma_50 = true -> gt sma_20 sma_50 = false /\ lt sma_20 sma_50 = false.
Proof. intros H. unfold gt. destruct (eq_not_lt _ _ H). auto. Qed.

Lemma classify_cases :
  (lt rsi (Int 30) = true /\ gt sma_20 sma_50 = true
   /\ classify current_price rsi sma_20 sma_50 = ("BUY", 2, "Strong BUY signal detected"))
  \/ (gt rsi (Int 70) = true /\ lt sma_20 sma_50 = true
      /\ classify current_price rsi sma_20 sma_50
         = ("SELL", 2, "Strong SELL signal detected"))
  \/ (~ (lt rsi (Int 30) = true /\ gt sma_20 sma_50 = true)
      /\ ~ (gt rsi (Int 70) = true /\ lt sma_20 sma_50 = true)
      /\ classify current_price rsi sma_20 sma_50
         = ("HOLD", 0, "No clear signal - HOLD position")).
Proof.
  unfold classify, votes.
  destruct (lt rsi (Int 30)) eqn:Hr30.
  - destruct (gt sma_20 sma_50) eqn:Hup; [left; auto|].
    right; right. destruct (lt sma_20 sma_50) eqn:Hdown; simpl;
      (split; [intros []; congruence|]);
      (split; [|reflexivity]); intros [H70 _];
      apply gt_70_not_lt_30 in H70; congruence.
  - destruct (gt rsi (Int 70)) eqn:Hr70.
    + destruct (gt sma_20 sma_50) eqn:Hup.
      * right; right. simpl. split; [intros []; congruence|].
        split; [|reflexivity]. intros [_ Hdown].
        apply lt_asym in Hdown. unfold gt in Hup. congruence.
      * destruct (lt sma_20 sma_50) eqn:Hdown; [right; left; auto|].
        right; right. simpl. split; [intros []; congruence|].
        split; [intros []; congruence|reflexivity].
    + right; right.
      destruct (gt sma_20 sma_50) eqn:Hup; [|destruct (lt sma_20 sma_50) eqn:Hdown]; simpl;
        (split; [intros []; congruence|]); (split; [intros []; congruence|reflexivity]).
Qed.

Lemma classify_strength_of_buy :
  (classify current_price rsi sma_20 sma_50).1.1 = "BUY" ->
  (classify current_price rsi sma_20 sma_50).1.2 = 2.
Proof.
  destruct classify_cases as [(_ & _ & ->)|[(_ & _ & ->)|(_ & _ & ->)]]; simpl;
    intros; auto; discriminate.
Qed.

End Classification.

(** C1.  The classification block computes two votes: the RSI vote adds one to
    the buy counter when [rsi < 30] and otherwise one to the sell counter when
    [rsi > 70]; the trend vote adds one to the buy counter when
    [sma_20 > sma_50] and otherwise one to the sell counter when
    [sma_20 < sma_50], and nothing when the two are equal.  The block then
    returns BUY with the buy count and "Strong BUY signal detected" when the buy
    count is at least 2, else SELL with the sell count and "Strong SELL signal
    detected" when the sell count is at least 2, else HOLD with strength 0 and
    "No clear signal - HOLD position". *)
Theorem classify_two_votes_then_decision (current_price rsi sma_20 sma_50 : num) :
  votes rsi sma_20 sma_50 = (buy_count rsi sma_20 sma_50, sell_count rsi sma_20 sma_50)
  /\ (eq sma_20 sma_50 = true ->
      Z.b2z (gt sma_20 sma_50) = 0
      /\ Z.b2z (negb (gt sma_20 sma_50) && lt sma_20 sma_50) = 0)
  /\ classify current_price rsi sma_20 sma_50 =
       if buy_count rsi sma_20 sma_50 >=? 2
       then ("BUY", buy_count rsi sma_20 sma_50, "Strong BUY signal detected")
       else if sell_count rsi sma_20 sma_50 >=? 2
       then ("SELL", sell_count rsi sma_20 sma_50, "Strong SELL signal detected")
       else ("HOLD", 0, "No clear signal - HOLD position").
Proof.
  split; [apply votes_counts|]. split.
  - intros H. destruct (no_vote_on_equality _ _ H) as [-> ->]. auto.
  - unfold classify. rewrite votes_counts. reflexivity.
Qed.

(* ===================================================================== *)
(** * [calculate_rsi]: the formula *)
(* ===================================================================== *)

(** C2 as stated does not hold for every period: with [period = 0] a sequence
    of one candle is long enough, and the division by [period] raises
    [ZeroDivisionError]. *)
Lemma calculate_rsi_period_0_raises :
  0 + 1 <= len [candle_at 1]
  /\ calculate_rsi [candle_at 1] 0 = Raise ZeroDivisionError
  /\ ~ returns (calculate_rsi [candle_at 1] 0).
Proof.
  split; [reflexivity|].
  assert (H : calculate_rsi [candle_at 1] 0 = Raise ZeroDivisionError) by reflexivity.
  split; [exact H|]. rewrite H. intros [v Hv]. discriminate.
Qed.

(** C2, amended.  For every period of at least 1 and every candle sequence of
    length at least [period + 1] (and at most [sys.maxsize], as every list),
    [calculate_rsi] takes the successive close-to-close differences of the whole
    sequence, keeps the last [period] of them, forms the average gain as the
    sum of the positive differences divided by [period] and the average loss
    as the sum of the absolute values of the negative differences divided by
    [period]; it returns exactly 100.0 when the average loss is 0, and
    [100 - 100 / (1 + avg_gain / avg_loss)] otherwise. *)
Theorem calculate_rsi_formula (prices : list Candle) (period : Z) :
  1 <= period -> period + 1 <= len prices -> len prices <= maxsize ->
  let ds := last_n (Z.to_nat period) (successive_differences (map close prices)) in
  let avg_gain := (fsum (List.filter is_positive ds) / float_of_Z period)%float in
  let avg_loss :=
    (fsum (map PrimFloat.abs (List.filter is_negative ds)) / float_of_Z period)%float in
  average_gain prices period = Ok (Float avg_gain)
  /\ average_loss prices period = Ok (Float avg_loss)
  /\ calculate_rsi prices period
     = Ok (Float (if PrimFloat.eqb avg_loss 0 then 100%float
                  else (100 - 100 / (1 + avg_gain / avg_loss))%float)).
Proof.
  intros Hp Hlen Hmax ds avg_gain avg_loss.
  assert (Hrange : 1 <= period < 2 ^ 63) by (unfold maxsize in Hmax; lia).
  split; [apply (average_gain_value prices period Hrange)|].
  split; [apply (average_loss_value prices period Hrange)|].
  apply (calculate_rsi_value prices period Hrange Hlen).
Qed.

Lemma calculate_rsi_formula_witness :
  exists avg_gain avg_loss,
    average_gain (map candle_at zigzag) 14 = Ok (Float avg_gain)
    /\ average_loss (map candle_at zigzag) 14 = Ok (Float avg_loss)
    /\ calculate_rsi (map candle_at zigzag) 14
       = Ok (Float (if PrimFloat.eqb avg_loss 0 then 100%float
                    else (100 - 100 / (1 + avg_gain / avg_loss))%float)).
Proof.
  eexists. eexists.
  apply (calculate_rsi_formula (map candle_at zigzag) 14);
    [lia | vm_compute; discriminate | vm_compute; discriminate].
Defined.

(* ===================================================================== *)
(** * The record [generate_signal] returns *)
(* ===================================================================== *)

Section Record.

Variable symbol : string.
Variable world : World.
Variable interval : string.

Lemma generate_signal_no_data :
  fetch_data symbol world interval 100 = [] ->
  generate_signal symbol world interval =
    Ok (<["symbol" := Str symbol]> (
        <["price" := Num (Int 0)]> (
        <["signal" := Str "ERROR"]> (
        <["strength" := Num (Int 0)]> (
        <["rsi" := Num (Int 0)]> (
        <["sma_20" := Num (Int 0)]> (
        <["sma_50" := Num (Int 0)]> (
        <["recommendation" := Str "Unable to fetch data"]> ∅)))))))).
Proof. unfold generate_signal. intros ->. reflexivity. Qed.

Lemma calculate_sma_returns (prices : list Candle) (period : Z) :
  1 <= period < 2 ^ 63 -> returns (calculate_sma prices period).
Proof.
  intros Hp. destruct (Z.lt_ge_cases (len prices) period) as [Hs|Hl].
  - exists (Int 0). apply calculate_sma_short, Hs.
  - eexists. apply calculate_sma_value; [exact Hp|lia].
Qed.

(** On the other path, when the fetch brought candles, the record has its
    time stamp, in the format of the specification. *)
Lemma generate_signal_with_data_has_timestamp :
  fetch_data symbol world interval 100 <> [] ->
  exists r, generate_signal symbol world interval = Ok r
    /\ r !! "timestamp" = Some (Str (strftime_Ymd_HMS (now world)))
    /\ (four_digit_year (now world) ->
        matches "dddd-dd-dd dd:dd:dd" (strftime_Ymd_HMS (now world)) = true).
Proof.
  intros Hne. unfold generate_signal.
  destruct (last (fetch_data symbol world interval 100)) as [c|] eqn:Hlast;
    [|apply last_None in Hlast; contradiction].
  destruct (calculate_rsi_cases (fetch_data symbol world interval 100) 14
              default_period_in_range) as (f & -> & _).
  destruct (calculate_sma_returns (fetch_data symbol world interval 100) 20) as [s20 ->];
    [split; [lia|reflexivity]|].
  destruct (calculate_sma_returns (fetch_data symbol world interval 100) 50) as [s50 ->];
    [split; [lia|reflexivity]|].
  rewrite !bind_Ok.
  destruct (classify (Float (close c)) (Float f) s20 s50) as [[sig str] rec].
  eexists. split; [reflexivity|]. split; [by simplify_map_eq|].
  apply strftime_Ymd_HMS_format.
Qed.

End Record.

(** C3.  When the fetched candle sequence is empty, [generate_signal] returns
    the record with signal ERROR, strength 0, price 0, rsi 0, sma_20 0,
    sma_50 0 and the recommendation "Unable to fetch data". *)
Theorem generate_signal_empty_is_error (symbol : string) (world : World) (interval : string) :
  fetch_data symbol world interval 100 = [] ->
  exists r, generate_signal symbol world interval = Ok r
    /\ r !! "signal" = Some (Str "ERROR")
    /\ r !! "strength" = Some (Num (Int 0))
    /\ r !! "price" = Some (Num (Int 0))
    /\ r !! "rsi" = Some (Num (Int 0))
    /\ r !! "sma_20" = Some (Num (Int 0))
    /\ r !! "sma_50" = Some (Num (Int 0))
    /\ r !! "recommendation" = Some (Str "Unable to fetch data")
    /\ r !! "symbol" = Some (Str symbol).
Proof.
  intros H. eexists. split; [apply (generate_signal_no_data _ _ _ H)|].
  repeat split; by simplify_map_eq.
Qed.

Lemma generate_signal_empty_is_error_witness :
  exists r, generate_signal "BTCUSDT" (offline noon) "1h" = Ok r
    /\ r !! "signal" = Some (Str "ERROR")
    /\ r !! "strength" = Some (Num (Int 0))
    /\ r !! "price" = Some (Num (Int 0))
    /\ r !! "rsi" = Some (Num (Int 0))
    /\ r !! "sma_20" = Some (Num (Int 0))
    /\ r !! "sma_50" = Some (Num (Int 0))
    /\ r !! "recommendation" = Some (Str "Unable to fetch data")
    /\ r !! "symbol" = Some (Str "BTCUSDT").
Proof.
  apply (generate_signal_empty_is_error "BTCUSDT" (offline noon) "1h"). reflexivity.
Defined.

(** C4, on the code: when every request fails, the record [generate_signal]
    returns has no ['timestamp'] key, and [display_signal], which reads
    [signal['timestamp']] from every record, raises [KeyError] on it. *)
Theorem generate_signal_error_record_has_no_timestamp
    (symbol interval : string) (clock : datetime) :
  exists r, generate_signal symbol (offline clock) interval = Ok r
    /\ r !! "timestamp" = None
    /\ display_signal r = Raise KeyError.
Proof.
  eexists. split; [apply generate_signal_no_data; reflexivity|].
  split; [by simplify_map_eq|].
  unfold display_signal, getitem. by simplify_map_eq.
Qed.

(* ===================================================================== *)
(** * [calculate_rsi]: short sequences *)
(* ===================================================================== *)

(** C5.  For every candle sequence of length strictly less than [period + 1],
    [calculate_rsi] returns exactly 50.0. *)
Theorem calculate_rsi_short_is_50 (prices : list Candle) (period : Z) :
  len prices < period + 1 ->
  calculate_rsi prices period = Ok (Float 50%float).
Proof. apply calculate_rsi_short_50. Qed.

Lemma calculate_rsi_short_is_50_witness :
  calculate_rsi (map candle_at [1; 2; 3]%float) 14 = Ok (Float 50%float).
Proof.
  apply (calculate_rsi_short_is_50 (map candle_at [1; 2; 3]%float) 14). reflexivity.
Defined.

(* ===================================================================== *)
(** * [calculate_sma] *)
(* ===================================================================== *)

(** C6 as stated does not hold for every period: with [period = 0] no
    sequence is shorter than the period, and the division by [period] raises
    [ZeroDivisionError] instead of returning a mean. *)
Lemma calculate_sma_period_0_raises :
  ~ (len [candle_at 1] < 0)
  /\ calculate_sma [candle_at 1] 0 = Raise ZeroDivisionError
  /\ ~ returns (calculate_sma [candle_at 1] 0).
Proof.
  split; [unfold len; simpl; lia|].
  assert (H : calculate_sma [candle_at 1] 0 = Raise ZeroDivisionError) by reflexivity.
  split; [exact H|]. rewrite H. intros [v Hv]. discriminate.
Qed.

(** C6, amended.  For every period of at least 1 and every candle sequence (of
    at most [sys.maxsize] candles, as every list), [calculate_sma] returns 0
    when the sequence is shorter than the period, and otherwise the
    arithmetic mean of the closing prices of the last [period] candles. *)
Theorem calculate_sma_is_mean (prices : list Candle) (period : Z) :
  1 <= period -> len prices <= maxsize ->
  (len prices < period -> calculate_sma prices period = Ok (Int 0))
  /\ (period <= len prices ->
      calculate_sma prices period
        = Ok (Float (mean (map close (last_n (Z.to_nat period) prices))))).
Proof.
  intros Hp Hmax. split.
  - apply calculate_sma_short.
  - intros Hlen. apply calculate_sma_value; [unfold maxsize in Hmax; lia|exact Hlen].
Qed.

Lemma calculate_sma_is_mean_witness :
  (len (map candle_at closes_1_to_15) < 5 ->
   calculate_sma (map candle_at closes_1_to_15) 5 = Ok (Int 0))
  /\ (5 <= len (map candle_at closes_1_to_15) ->
      calculate_sma (map candle_at closes_1_to_15) 5
        = Ok (Float (mean (map close (last_n (Z.to_nat 5) (map candle_at closes_1_to_15)))))).
Proof.
  apply (calculate_sma_is_mean (map candle_at closes_1_to_15) 5);
    [lia | vm_compute; discriminate].
Defined.

(* ===================================================================== *)
(** * [calculate_rsi]: the range *)
(* ===================================================================== *)

(** C7 as stated does not hold: on closes that swing between 0 and [2^1023]
    the sums of the gains and of the losses both overflow to [+infinity], and
    [calculate_rsi] returns [nan], which is neither at least 0 nor at most 100. *)
Lemma calculate_rsi_seesaw_is_nan :
  calculate_rsi (map candle_at seesaw) 14 = Ok (Float nan)
  /\ le (Int 0) (Float nan) = false
  /\ le (Float nan) (Int 100) = false.
Proof. repeat split; vm_compute; reflexivity. Qed.

(** C7, amended.  For every candle sequence, [calculate_rsi] (with its default
    period) returns a float that lies in the closed interval [0, 100], except
    when the average gain and the average loss have both overflowed to
    [+infinity]: then it returns [nan].  The averages are computed on a
    sequence of at least 15 candles only, and whenever both have overflowed
    there the result is [nan]. *)
Theorem calculate_rsi_in_0_100_unless_overflow (prices : list Candle) :
  exists f,
    calculate_rsi prices 14 = Ok (Float f)
    /\ ((le (Int 0) (Float f) = true /\ le (Float f) (Int 100) = true)
        \/ (average_gain prices 14 = Ok (Float infinity)
            /\ average_loss prices 14 = Ok (Float infinity)
            /\ PrimFloat.is_nan f = true))
    /\ (15 <= len prices ->
        average_gain prices 14 = Ok (Float infinity) ->
        average_loss prices 14 = Ok (Float infinity) ->
        PrimFloat.is_nan f = true).
Proof.
  destruct (calculate_rsi_cases prices 14 default_period_in_range)
    as (f & Hf & Hcases).
  exists f. split; [exact Hf|]. split.
  - destruct Hcases as [Hr|(Hg & Hl & Hnan)].
    + left. apply le100_range, Hr.
    + right. auto using is_nan_of_SF.
  - intros Hlen Hg Hl. apply (is_nan_of_result _ f Hf).
    apply calculate_rsi_both_overflow; [lia|exact Hg|exact Hl].
Qed.

(** On the closes that swing between 0 and [2^1023] both averages overflow,
    and the result is [nan]. *)
Lemma calculate_rsi_in_0_100_unless_overflow_witness :
  15 <= len (map candle_at seesaw)
  /\ average_gain (map candle_at seesaw) 14 = Ok (Float infinity)
  /\ average_loss (map candle_at seesaw) 14 = Ok (Float infinity)
  /\ exists f, calculate_rsi (map candle_at seesaw) 14 = Ok (Float f)
       /\ PrimFloat.is_nan f = true.
Proof.
  assert (Hlen : 15 <= len (map candle_at seesaw)) by (vm_compute; discriminate).
  assert (Hg : average_gain (map candle_at seesaw) 14 = Ok (Float infinity))
    by (vm_compute; reflexivity).
  assert (Hl : average_loss (map candle_at seesaw) 14 = Ok (Float infinity))
    by (vm_compute; reflexivity).
  split; [exact Hlen|]. split; [exact Hg|]. split; [exact Hl|].
  destruct (calculate_rsi_in_0_100_unless_overflow (map candle_at seesaw))
    as (f & Hf & _ & Hnan).
  exists f. split; [exact Hf|exact (Hnan Hlen Hg Hl)].
Defined.

(* ===================================================================== *)
(** * [calculate_rsi]: rising closes *)
(* ===================================================================== *)

(** C8 as stated does not hold: on 14 closes that rise by 1 at each step the
    function has only 13 differences, takes its first branch and returns
    50.0. *)
Lemma calculate_rsi_14_rising_closes_is_50 :
  length (map candle_at closes_1_to_14) = 14%nat
  /\ rises_by_one (map close (map candle_at closes_1_to_14))
  /\ calculate_rsi (map candle_at closes_1_to_14) 14 = Ok (Float 50%float)
  /\ calculate_rsi (map candle_at closes_1_to_14) 14 <> Ok (Float 100%float).
Proof.
  split; [reflexivity|]. split; [vm_compute; repeat constructor|].
  assert (H : calculate_rsi (map candle_at closes_1_to_14) 14 = Ok (Float 50%float))
    by (apply calculate_rsi_short_50; reflexivity).
  split; [exact H|]. rewrite H. apply float_50_is_not_100.
Qed.

(** C8, amended.  For a candle sequence of 15 closes that rise by 1 at each
    step, all 14 differences are positive, the average loss is 0, and
    [calculate_rsi] returns exactly 100.0. *)
Theorem calculate_rsi_15_rising_closes_is_100 (prices : list Candle) :
  length prices = 15%nat ->
  rises_by_one (map close prices) ->
  Forall (fun d => gt (Float d) (Int 0) = true) (deltas (map close prices))
  /\ average_loss prices 14 = Ok (Float 0%float)
  /\ calculate_rsi prices 14 = Ok (Float 100%float).
Proof.
  intros Hlen Hrise.
  assert (Hd : deltas (map close prices) = replicate 14 1%float).
  { rewrite deltas_successive_differences, (rises_by_one_differences _ Hrise).
    rewrite length_map, Hlen. reflexivity. }
  assert (Hloss : average_loss prices 14 = Ok (Float 0%float))
    by (unfold average_loss; rewrite Hd; vm_compute; reflexivity).
  split; [rewrite Hd; apply Forall_replicate; vm_compute; reflexivity|].
  split; [exact Hloss|].
  rewrite calculate_rsi_long by (unfold len; lia).
  rewrite Hloss. unfold average_gain. rewrite Hd. vm_compute. reflexivity.
Qed.

Lemma calculate_rsi_15_rising_closes_is_100_witness :
  Forall (fun d => gt (Float d) (Int 0) = true)
         (deltas (map close (map candle_at closes_1_to_15)))
  /\ average_loss (map candle_at closes_1_to_15) 14 = Ok (Float 0%float)
  /\ calculate_rsi (map candle_at closes_1_to_15) 14 = Ok (Float 100%float).
Proof.
  apply (calculate_rsi_15_rising_closes_is_100 (map candle_at closes_1_to_15)).
  - reflexivity.
  - vm_compute. repeat constructor.
Defined.

(* ===================================================================== *)
(** * The classification block: strength *)
(* ===================================================================== *)

(** C9.  The classification is monotone in its two votes: when two inputs both
    give BUY, and every buy vote of the first is a buy vote of the second, the
    strength of the second is at least the strength of the first. *)
Theorem classify_buy_strength_monotone
    (price1 rsi1 sma_20_1 sma_50_1 price2 rsi2 sma_20_2 sma_50_2 : num) :
  (classify price1 rsi1 sma_20_1 sma_50_1).1.1 = "BUY" ->
  (classify price2 rsi2 sma_20_2 sma_50_2).1.1 = "BUY" ->
  (lt rsi1 (Int 30) = true -> lt rsi2 (Int 30) = true) ->
  (gt sma_20_1 sma_50_1 = true -> gt sma_20_2 sma_50_2 = true) ->
  (classify price1 rsi1 sma_20_1 sma_50_1).1.2 <= (classify price2 rsi2 sma_20_2 sma_50_2).1.2.
Proof.
  intros H1 H2 _ _.
  rewrite (classify_strength_of_buy price1 rsi1 sma_20_1 sma_50_1 H1).
  rewrite (classify_strength_of_buy price2 rsi2 sma_20_2 sma_50_2 H2).
  lia.
Qed.

Lemma classify_buy_strength_monotone_witness :
  (classify (Float 100%float) (Float 25%float) (Float 110%float) (Float 100%float)).1.2
  <= (classify (Float 101%float) (Float 20%float) (Float 120%float) (Int 0)).1.2.
Proof.
  apply (classify_buy_strength_monotone
           (Float 100%float) (Float 25%float) (Float 110%float) (Float 100%float)
           (Float 101%float) (Float 20%float) (Float 120%float) (Int 0));
    try reflexivity; intros _; vm_compute; reflexivity.
Defined.

(** C10.  The strength the classification block returns is 0 or 2, never 1 and
    never more than 2.  The signal is BUY exactly when [rsi < 30] and
    [sma_20 > sma_50] both hold, SELL exactly when [rsi > 70] and
    [sma_20 < sma_50] both hold, and in every other case it is HOLD with
    strength 0. *)
Theorem classify_strength_0_or_2 (current_price rsi sma_20 sma_50 : num) :
  ((classify current_price rsi sma_20 sma_50).1.2 = 0
   \/ (classify current_price rsi sma_20 sma_50).1.2 = 2)
  /\ ((classify current_price rsi sma_20 sma_50).1.1 = "BUY"
      <-> lt rsi (Int 30) = true /\ gt sma_20 sma_50 = true)
  /\ ((classify current_price rsi sma_20 sma_50).1.1 = "SELL"
      <-> gt rsi (Int 70) = true /\ lt sma_20 sma_50 = true)
  /\ ((classify current_price rsi sma_20 sma_50).1.1 = "BUY"
      \/ (classify current_price rsi sma_20 sma_50).1.1 = "SELL" ->
      (classify current_price rsi sma_20 sma_50).1.2 = 2)
  /\ (~ (lt rsi (Int 30) = true /\ gt sma_20 sma_50 = true) ->
      ~ (gt rsi (Int 70) = true /\ lt sma_20 sma_50 = true) ->
      (classify current_price rsi sma_20 sma_50).1.1 = "HOLD"
      /\ (classify current_price rsi sma_20 sma_50).1.2 = 0).
Proof.
  destruct (classify_cases current_price rsi sma_20 sma_50)
    as [(Hr & Ht & ->)|[(Hr & Ht & ->)|(Hb & Hs & ->)]]; simpl.
  - repeat split; auto; try discriminate; try tauto.
    intros [H70 _]. apply gt_70_not_lt_30 in H70. congruence.
  - repeat split; auto; try discriminate; try tauto.
    intros [H30 _]. apply gt_70_not_lt_30 in Hr. congruence.
  - repeat split; auto; try discriminate; try tauto.
    intros [|]; discriminate.
Qed.

(* ===================================================================== *)
(** * The scenarios of the specification, run on the model *)
(* ===================================================================== *)

(** Scenarios 4, 5 and 6: two buy votes, no vote, two sell votes. *)
Example scenario_buy :
  classify (Float 100) (Float 25) (Float 110) (Float 100)
  = ("BUY", 2, "Strong BUY signal detected").
Proof. vm_compute. reflexivity. Qed.

Example scenario_hold :
  classify (Float 100) (Float 50) (Float 100) (Float 100)
  = ("HOLD", 0, "No clear signal - HOLD position").
Proof. vm_compute. reflexivity. Qed.

Example scenario_sell :
  classify (Float 100) (Float 75) (Float 90) (Float 100)
  = ("SELL", 2, "Strong SELL signal detected").
Proof. vm_compute. reflexivity. Qed.

(** Fifteen rising closes through the whole of [generate_signal]: the RSI is
    100.0, both averages are the [int] 0 of the short-sequence branch, and the
    signal is HOLD. *)
Example generate_signal_rising :
  (r ← generate_signal "BTCUSDT" (serving (map candle_at closes_1_to_15) noon) "1h";
   Ok (r !! "signal", r !! "rsi", r !! "sma_20", r !! "price", r !! "timestamp"))
  = Ok (Some (Str "HOLD"), Some (Num (Float 100)), Some (Num (Int 0)),
        Some (Num (Float 15)), Some (Str "2024-03-07 12:00:00")).
Proof. vm_compute. reflexivity. Qed.

(* ===================================================================== *)
(** * The windows of the indicators *)
(* ===================================================================== *)

Lemma successive_differences_drop (k : nat) (closes : list float) :
  successive_differences (drop k closes) = drop k (successive_differences closes).
Proof.
  revert closes. induction k as [|k IH]; intros closes; [reflexivity|].
  destruct closes as [|a [|b rest]]; try reflexivity.
  - simpl. destruct k; reflexivity.
  - change (successive_differences (a :: b :: rest))
      with (PrimFloat.sub b a :: successive_differences (b :: rest)).
    rewrite !skipn_cons. apply IH.
Qed.

Lemma last_n_differences (n : nat) (closes : list float) :
  (1 <= n)%nat -> (n + 1 <= length closes)%nat ->
  last_n n (successive_differences (last_n (n + 1) closes))
  = last_n n (successive_differences closes).
Proof.
  intros Hn Hlen. unfold last_n.
  rewrite !successive_differences_drop, !successive_differences_length.
  rewrite drop_drop, !length_drop, successive_differences_length. f_equal. lia.
Qed.

Lemma last_n_idem {A} (n : nat) (l : list A) : last_n n (last_n n l) = last_n n l.
Proof. unfold last_n. rewrite drop_drop, length_drop. f_equal. lia. Qed.

Lemma len_last_n {A} (n : Z) (l : list A) :
  0 <= n <= len l -> len (last_n (Z.to_nat n) l) = n.
Proof. intros H. unfold len in *. rewrite last_n_length; lia. Qed.

(** X1.  [calculate_rsi] reads only the last [period + 1] candles: on a
    sequence of at least [period + 1] candles, with a period of at least 1,
    it returns what it returns on the last [period + 1] of them alone. *)
Theorem calculate_rsi_window (prices : list Candle) (period : Z) :
  1 <= period -> period + 1 <= len prices ->
  calculate_rsi prices period
  = calculate_rsi (last_n (Z.to_nat (period + 1)) prices) period.
Proof.
  intros Hp Hlen.
  assert (Hw : len (last_n (Z.to_nat (period + 1)) prices) = period + 1)
    by (apply len_last_n; lia).
  unfold calculate_rsi.
  destruct (Z.ltb_spec (len prices) (period + 1)); [lia|].
  destruct (Z.ltb_spec (len (last_n (Z.to_nat (period + 1)) prices)) (period + 1)); [lia|].
  rewrite !deltas_successive_differences, !slice_from_last_n by lia.
  assert (Hd : last_n (Z.to_nat period)
                 (successive_differences (map close (last_n (Z.to_nat (period + 1)) prices)))
               = last_n (Z.to_nat period) (successive_differences (map close prices))).
  { unfold last_n at 2. rewrite <- skipn_map, <- (length_map close).
    replace (Z.to_nat (period + 1)) with (Z.to_nat period + 1)%nat by lia.
    apply (last_n_differences (Z.to_nat period) (map close prices)); [lia|].
    rewrite length_map. unfold len in Hlen. lia. }
  rewrite Hd. reflexivity.
Qed.

Lemma calculate_rsi_window_witness :
  calculate_rsi (map candle_at zigzag) 5
  = calculate_rsi (last_n (Z.to_nat (5 + 1)) (map candle_at zigzag)) 5.
Proof.
  apply (calculate_rsi_window (map candle_at zigzag) 5); [lia|vm_compute; discriminate].
Defined.

(** X2.  [calculate_sma] reads only the last [period] candles: on a sequence
    of at least [period] candles, with a period of at least 1, it returns
    what it returns on the last [period] of them alone. *)
Theorem calculate_sma_window (prices : list Candle) (period : Z) :
  1 <= period -> period <= len prices ->
  calculate_sma prices period = calculate_sma (last_n (Z.to_nat period) prices) period.
Proof.
  intros Hp Hlen.
  assert (Hw : len (last_n (Z.to_nat period) prices) = period) by (apply len_last_n; lia).
  unfold calculate_sma.
  destruct (Z.ltb_spec (len prices) period); [lia|].
  destruct (Z.ltb_spec (len (last_n (Z.to_nat period) prices)) period); [lia|].
  rewrite !slice_from_last_n, last_n_idem by lia. reflexivity.
Qed.

Lemma calculate_sma_window_witness :
  calculate_sma (map candle_at closes_1_to_15) 5
  = calculate_sma (last_n (Z.to_nat 5) (map candle_at closes_1_to_15)) 5.
Proof.
  apply (calculate_sma_window (map candle_at closes_1_to_15) 5);
    [lia|vm_compute; discriminate].
Defined.

(* ===================================================================== *)
(** * [calculate_rsi]: the two ends of the range *)
(* ===================================================================== *)

Lemma filter_none {A} (test : A -> bool) (l : list A) :
  Forall (fun x => test x = false) l -> List.filter test l = [].
Proof.
  induction 1 as [|x l Hx _ IH]; [reflexivity|]. simpl. rewrite Hx. exact IH.
Qed.

Lemma float_0_div_pos (b : float) : pos (Prim2SF b) -> (0 / b)%float = 0%float.
Proof.
  intros Hb. apply Prim2SF_inj. rewrite FloatAxioms.div_spec, Prim2SF_0.
  destruct (Prim2SF b) as [[]|[]| |[] m e]; simpl in *; try tauto; reflexivity.
Qed.

Lemma float_of_Z_pos (period : Z) : 0 < period < 2 ^ 63 -> pos (Prim2SF (float_of_Z period)).
Proof.
  intros Hp. destruct (float_of_int_small period Hp) as (_ & m & e & ->). exact I.
Qed.

(** X3.  When none of the last [period] differences is negative, the
    average loss is 0 and [calculate_rsi] returns exactly 100.0; so it does
    on closes that never move. *)
Theorem calculate_rsi_no_loss_is_100 (prices : list Candle) (period : Z) :
  1 <= period -> period + 1 <= len prices <= maxsize ->
  Forall (fun d => lt (Float d) (Int 0) = false)
         (slice_from (- period) (deltas (map close prices))) ->
  calculate_rsi prices period = Ok (Float 100).
Proof.
  intros Hp [Hlen Hmax] Hno. unfold maxsize in Hmax.
  rewrite deltas_successive_differences, slice_from_last_n in Hno by lia.
  rewrite calculate_rsi_value by lia.
  rewrite (filter_none is_negative _ Hno). unfold rsi_of_averages, fsum. simpl fold_left.
  rewrite float_0_div_pos by (apply float_of_Z_pos; lia). reflexivity.
Qed.

Lemma calculate_rsi_no_loss_is_100_witness :
  calculate_rsi (map candle_at flat_closes) 14 = Ok (Float 100).
Proof.
  apply (calculate_rsi_no_loss_is_100 (map candle_at flat_closes) 14).
  - lia.
  - vm_compute. split; discriminate.
  - change (slice_from _ _) with (replicate 14 0%float).
    apply Forall_replicate. vm_compute. reflexivity.
Defined.

(** X4.  When none of the last [period] differences is positive and the
    average loss is not 0, [calculate_rsi] returns exactly 0.0. *)
Theorem calculate_rsi_no_gain_is_0 (prices : list Candle) (period : Z) (avg_loss : float) :
  1 <= period -> period + 1 <= len prices <= maxsize ->
  Forall (fun d => gt (Float d) (Int 0) = false)
         (slice_from (- period) (deltas (map close prices))) ->
  average_loss prices period = Ok (Float avg_loss) ->
  eq (Float avg_loss) (Int 0) = false ->
  calculate_rsi prices period = Ok (Float 0).
Proof.
  intros Hp [Hlen Hmax] Hno Hl Hz. unfold maxsize in Hmax.
  assert (Hr : 1 <= period < 2 ^ 63) by lia.
  rewrite deltas_successive_differences, slice_from_last_n in Hno by lia.
  rewrite calculate_rsi_value by lia.
  destruct (average_loss_value prices period Hr) as [Hl' Hnn].
  rewrite Hl in Hl'. injection Hl' as E. rewrite <- E in *. clear E.
  rewrite (filter_none is_positive _ Hno). unfold rsi_of_averages, fsum at 1. simpl fold_left.
  rewrite float_0_div_pos by (apply float_of_Z_pos; lia).
  rewrite eq_0_eqb in Hz. rewrite Hz.
  rewrite float_0_div_pos by (apply eqb_0_false_pos; assumption). reflexivity.
Qed.

Lemma calculate_rsi_no_gain_is_0_witness :
  calculate_rsi (map candle_at closes_15_to_1) 14 = Ok (Float 0).
Proof.
  apply (calculate_rsi_no_gain_is_0 (map candle_at closes_15_to_1) 14 1%float).
  - lia.
  - vm_compute. split; discriminate.
  - change (slice_from _ _) with (replicate 14 (-1)%float).
    apply Forall_replicate. vm_compute. reflexivity.
  - vm_compute. reflexivity.
  - vm_compute. reflexivity.
Defined.

(** X5.  For every period of at least 1, and every candle sequence (of at
    most [sys.maxsize] candles, as every list), [calculate_rsi] raises
    nothing: it returns a float between 0 and 100, or [nan] when both
    averages have overflowed to [+infinity].  Whenever both have overflowed
    on a sequence of at least [period + 1] candles, the result is [nan]. *)
Theorem calculate_rsi_range (prices : list Candle) (period : Z) :
  1 <= period -> len prices <= maxsize ->
  exists f,
    calculate_rsi prices period = Ok (Float f)
    /\ ((le (Int 0) (Float f) = true /\ le (Float f) (Int 100) = true)
        \/ (average_gain prices period = Ok (Float infinity)
            /\ average_loss prices period = Ok (Float infinity)
            /\ PrimFloat.is_nan f = true))
    /\ (period + 1 <= len prices ->
        average_gain prices period = Ok (Float infinity) ->
        average_loss prices period = Ok (Float infinity) ->
        PrimFloat.is_nan f = true).
Proof.
  intros Hp Hmax. unfold maxsize in Hmax.
  assert (Hf : exists f, calculate_rsi prices period = Ok (Float f)
                 /\ ((le (Int 0) (Float f) = true /\ le (Float f) (Int 100) = true)
                     \/ (average_gain prices period = Ok (Float infinity)
                         /\ average_loss prices period = Ok (Float infinity)
                         /\ PrimFloat.is_nan f = true))).
  { destruct (Z.lt_ge_cases (len prices) (period + 1)) as [Hshort|Hlong].
    - exists 50%float. split; [apply calculate_rsi_short_50, Hshort|].
      left. apply le100_range, range_of_50_and_100.
    - destruct (calculate_rsi_cases prices period) as (f & Hf & [Hr|(Hg & Hl & Hnan)]);
        [lia| |]; exists f; (split; [exact Hf|]).
      + left. apply le100_range, Hr.
      + right. auto using is_nan_of_SF. }
  destruct Hf as (f & Hf & Hcases). exists f.
  split; [exact Hf|]. split; [exact Hcases|].
  intros Hlen Hg Hl. apply (is_nan_of_result _ f Hf).
  apply calculate_rsi_both_overflow; assumption.
Qed.

(** With the period 4 the closes that swing between 0 and [2^1023] have two
    gains and two losses of [2^1023] in the window: both averages overflow
    and the result is [nan]. *)
Lemma calculate_rsi_range_witness :
  4 + 1 <= len (map candle_at seesaw)
  /\ average_gain (map candle_at seesaw) 4 = Ok (Float infinity)
  /\ average_loss (map candle_at seesaw) 4 = Ok (Float infinity)
  /\ exists f, calculate_rsi (map candle_at seesaw) 4 = Ok (Float f)
       /\ PrimFloat.is_nan f = true.
Proof.
  assert (Hlen : 4 + 1 <= len (map candle_at seesaw)) by (vm_compute; discriminate).
  assert (Hg : average_gain (map candle_at seesaw) 4 = Ok (Float infinity))
    by (vm_compute; reflexivity).
  assert (Hl : average_loss (map candle_at seesaw) 4 = Ok (Float infinity))
    by (vm_compute; reflexivity).
  split; [exact Hlen|]. split; [exact Hg|]. split; [exact Hl|].
  destruct (calculate_rsi_range (map candle_at seesaw) 4) as (f & Hf & _ & Hnan);
    [lia|vm_compute; discriminate|].
  exists f. split; [exact Hf|exact (Hnan Hlen Hg Hl)].
Defined.

(* ===================================================================== *)
(** * The period 0 *)
(* ===================================================================== *)

Lemma truediv_by_0 (total : num) : truediv total (Int 0) = Raise ZeroDivisionError.
Proof. destruct total as [z|f]; [destruct z|]; reflexivity. Qed.

Lemma sum_gains_returns (ds : list float) : returns (sum (map gain ds)).
Proof.
  destruct (sum_items is_positive (fun d => d) (fun d H => proj1 (gt_0_pos d) H) ds) as [H _].
  eexists. exact H.
Qed.

Lemma sum_closes_returns (closes : list float) : returns (sum (map Float closes)).
Proof.
  destruct closes as [|x xs]; [exists (Int 0); reflexivity|].
  eexists. apply sum_floats.
Qed.

(** X6.  With the period 0, [calculate_rsi] returns 50.0 on the empty
    sequence and raises [ZeroDivisionError] on every other one. *)
Theorem calculate_rsi_zero_period (prices : list Candle) :
  calculate_rsi prices 0
  = if decide (prices = []) then Ok (Float 50) else Raise ZeroDivisionError.
Proof.
  destruct prices as [|p prices]; [reflexivity|].
  rewrite calculate_rsi_long by (unfold len; simpl length; lia).
  destruct (decide (p :: prices = [])) as [|_]; [discriminate|].
  destruct (sum_gains_returns (slice_from (- 0) (deltas (map close (p :: prices)))))
    as [total Htotal].
  unfold average_gain. rewrite Htotal, bind_Ok, truediv_by_0. reflexivity.
Qed.

(** X7.  With the period 0, [calculate_sma] raises [ZeroDivisionError] on
    every candle sequence, the empty one too. *)
Theorem calculate_sma_zero_period (prices : list Candle) :
  calculate_sma prices 0 = Raise ZeroDivisionError.
Proof.
  unfold calculate_sma.
  destruct (Z.ltb_spec (len prices) 0); [unfold len in *; lia|].
  destruct (sum_closes_returns (map close (slice_from (- 0) prices))) as [total ->].
  rewrite bind_Ok. apply truediv_by_0.
Qed.

(* ===================================================================== *)
(** * Averages of positive closes *)
(* ===================================================================== *)

Lemma fold_add_nonneg (xs : list float) (a : float) :
  nonneg (Prim2SF a) -> Forall (fun x => nonneg (Prim2SF x)) xs ->
  nonneg (Prim2SF (fold_left PrimFloat.add xs a)).
Proof.
  intros Ha Hxs. revert a Ha. induction Hxs as [|x xs Hx _ IH]; intros a Ha; [exact Ha|].
  simpl. apply IH, float_add_nonneg; assumption.
Qed.

Lemma nonneg_not_lt_0 (m : float) : nonneg (Prim2SF m) -> lt (Float m) (Int 0) = false.
Proof.
  intros Hm. destruct (lt (Float m) (Int 0)) eqn:H; [|reflexivity].
  apply lt_0_neg in H. destruct (Prim2SF m) as [[]|[]| |[] ? ?]; simpl in *; tauto.
Qed.

(** The mean of positive closes is [+0], positive or [+infinity]. *)
Lemma calculate_sma_of_positive (prices : list Candle) (period : Z) :
  1 <= period < 2 ^ 63 -> period <= len prices ->
  Forall (fun p => gt (Float (close p)) (Int 0) = true) prices ->
  exists sma, calculate_sma prices period = Ok (Float sma) /\ nonneg (Prim2SF sma).
Proof.
  intros Hp Hlong Hpos.
  eexists. split; [apply calculate_sma_value; lia|]. unfold mean.
  assert (Hn : len (map close (last_n (Z.to_nat period) prices)) = period).
  { unfold len in *. rewrite length_map, last_n_length; lia. }
  rewrite Hn.
  refine (proj2 (truediv_total (Float _) _ period _ (or_intror eq_refl) _)); [lia|].
  apply fold_add_nonneg; [exact I|].
  change (map close ?l) with (close <$> l). apply Forall_fmap.
  unfold last_n. apply Forall_drop. eapply Forall_impl; [exact Hpos|].
  intros p Hgt. apply pos_nonneg, gt_0_pos, Hgt.
Qed.

(** X8.  On candles whose closes are all positive, [calculate_sma] with a
    period of at least 1 never returns a negative number, whatever the
    rounding and even when the sum overflows. *)
Theorem calculate_sma_never_negative (prices : list Candle) (period : Z) :
  1 <= period -> len prices <= maxsize ->
  Forall (fun p => gt (Float (close p)) (Int 0) = true) prices ->
  exists sma, calculate_sma prices period = Ok sma /\ lt sma (Int 0) = false.
Proof.
  intros Hp Hmax Hpos. unfold maxsize in Hmax.
  destruct (Z.lt_ge_cases (len prices) period) as [Hshort|Hlong].
  - exists (Int 0). split; [apply calculate_sma_short, Hshort|reflexivity].
  - destruct (calculate_sma_of_positive prices period) as (sma & Hsma & Hnn);
      [lia|lia|exact Hpos|].
    exists (Float sma). split; [exact Hsma|apply nonneg_not_lt_0, Hnn].
Qed.

Lemma calculate_sma_never_negative_witness :
  exists sma, calculate_sma (map candle_at closes_1_to_15) 5 = Ok sma
    /\ lt sma (Int 0) = false.
Proof.
  apply (calculate_sma_never_negative (map candle_at closes_1_to_15) 5).
  - lia.
  - vm_compute. discriminate.
  - unfold closes_1_to_15, closes_1_to_14. simpl.
    repeat (constructor; [vm_compute; reflexivity|]). constructor.
Defined.

(* ===================================================================== *)
(** * The record of the path with data *)
(* ===================================================================== *)

(** What [display_signal] reads from a record with the nine keys. *)
Lemma display_signal_hold (symbol recommendation time : string)
    (price rsi sma_20 sma_50 : num) (strength : Z) :
  display_signal (<["symbol" := Str symbol]> (
                  <["price" := Num price]> (
                  <["signal" := Str "HOLD"]> (
                  <["strength" := Num (Int strength)]> (
                  <["rsi" := Num rsi]> (
                  <["sma_20" := Num sma_20]> (
                  <["sma_50" := Num sma_50]> (
                  <["recommendation" := Str recommendation]> (
                  <["timestamp" := Str time]> ∅)))))))))
  = Ok [Num price; Str "HOLD"; Num rsi; Num sma_20; Num sma_50; Str time;
        Str recommendation].
Proof. vm_compute. reflexivity. Qed.

Lemma display_signal_trade (symbol sig recommendation time : string)
    (price rsi sma_20 sma_50 : num) (strength : Z) :
  sig = "BUY" \/ sig = "SELL" ->
  display_signal (<["symbol" := Str symbol]> (
                  <["price" := Num price]> (
                  <["signal" := Str sig]> (
                  <["strength" := Num (Int strength)]> (
                  <["rsi" := Num rsi]> (
                  <["sma_20" := Num sma_20]> (
                  <["sma_50" := Num sma_50]> (
                  <["recommendation" := Str recommendation]> (
                  <["timestamp" := Str time]> ∅)))))))))
  = Ok [Num price; Str sig; Num (Int strength); Num rsi; Num sma_20; Num sma_50; Str time;
        Str recommendation].
Proof. intros [-> | ->]; vm_compute; reflexivity. Qed.

Section RecordFields.

Variable symbol : string.
Variable world : World.
Variable interval : string.

Let prices := fetch_data symbol world interval 100.

(** The record of the path with data, with the values of its fields. *)
Lemma generate_signal_with_data (last_candle : Candle) :
  last prices = Some last_candle ->
  exists rsi sma_20 sma_50,
    calculate_rsi prices 14 = Ok (Float rsi)
    /\ calculate_sma prices 20 = Ok sma_20
    /\ calculate_sma prices 50 = Ok sma_50
    /\ generate_signal symbol world interval =
         let '(signal, strength, recommendation) :=
           classify (Float (close last_candle)) (Float rsi) sma_20 sma_50 in
         Ok (<["symbol" := Str symbol]> (
             <["price" := Num (Float (close last_candle))]> (
             <["signal" := Str signal]> (
             <["strength" := Num (Int strength)]> (
             <["rsi" := Num (Float rsi)]> (
             <["sma_20" := Num sma_20]> (
             <["sma_50" := Num sma_50]> (
             <["recommendation" := Str recommendation]> (
             <["timestamp" := Str (strftime_Ymd_HMS (now world))]> ∅))))))))).
Proof.
  intros Hlast. unfold generate_signal. fold prices. rewrite Hlast.
  destruct (calculate_rsi_cases prices 14 default_period_in_range) as (rsi & Hrsi & _).
  destruct (calculate_sma_returns prices 20) as [sma_20 H20]; [split; [lia|reflexivity]|].
  destruct (calculate_sma_returns prices 50) as [sma_50 H50]; [split; [lia|reflexivity]|].
  exists rsi, sma_20, sma_50. rewrite Hrsi, H20, H50. auto.
Qed.

Lemma last_of_nonempty : prices <> [] -> exists last_candle, last prices = Some last_candle.
Proof.
  intros Hne. destruct (last prices) eqn:H; [eauto|]. apply last_None in H. contradiction.
Qed.

(** X9.  [generate_signal] raises nothing, and its record has the eight
    keys symbol, price, signal, strength, rsi, sma_20, sma_50 and
    recommendation, and, exactly when candles were fetched, the key
    timestamp as well. *)
Theorem generate_signal_keys :
  exists r, generate_signal symbol world interval = Ok r
    /\ dom r = if decide (prices = []) then error_keys else error_keys ∪ {[ "timestamp" ]}.
Proof.
  destruct (decide (prices = [])) as [Hempty|Hne].
  - eexists. split; [apply generate_signal_no_data, Hempty|].
    rewrite !dom_insert_L, dom_empty_L. unfold error_keys. set_solver.
  - destruct (last_of_nonempty Hne) as [c Hc].
    destruct (generate_signal_with_data c Hc) as (rsi & s20 & s50 & _ & _ & _ & ->).
    destruct (classify _ _ _ _) as [[sig str] rec].
    eexists. split; [reflexivity|].
    rewrite !dom_insert_L, dom_empty_L. unfold error_keys. set_solver.
Qed.

(** X10.  The signal of the record is one of BUY, SELL, HOLD and ERROR, and
    it is ERROR exactly when no candle was fetched. *)
Theorem generate_signal_error_iff_no_data :
  exists r sig, generate_signal symbol world interval = Ok r
    /\ r !! "signal" = Some (Str sig)
    /\ (sig = "ERROR" <-> prices = [])
    /\ (sig = "BUY" \/ sig = "SELL" \/ sig = "HOLD" \/ sig = "ERROR").
Proof.
  destruct (decide (prices = [])) as [Hempty|Hne].
  - eexists _, "ERROR". split; [apply generate_signal_no_data, Hempty|].
    split; [by simplify_map_eq|]. tauto.
  - destruct (last_of_nonempty Hne) as [c Hc].
    destruct (generate_signal_with_data c Hc) as (rsi & s20 & s50 & _ & _ & _ & ->).
    destruct (classify_cases (Float (close c)) (Float rsi) s20 s50)
      as [(_ & _ & ->)|[(_ & _ & ->)|(_ & _ & ->)]];
      eexists _, _; (split; [reflexivity|]); (split; [by simplify_map_eq|]);
      (split; [split; [discriminate|contradiction]|]); auto.
Qed.

(** X11.  When candles were fetched, the record holds the close of the last
    candle as its price, the symbol of the object, and what [calculate_rsi]
    with its default period and [calculate_sma] with the periods 20 and 50
    return on the fetched candles, none of which raises. *)
Theorem generate_signal_fields (last_candle : Candle) :
  last prices = Some last_candle ->
  exists r rsi sma_20 sma_50,
    generate_signal symbol world interval = Ok r
    /\ calculate_rsi prices 14 = Ok rsi
    /\ calculate_sma prices 20 = Ok sma_20
    /\ calculate_sma prices 50 = Ok sma_50
    /\ r !! "price" = Some (Num (Float (close last_candle)))
    /\ r !! "symbol" = Some (Str symbol)
    /\ r !! "rsi" = Some (Num rsi)
    /\ r !! "sma_20" = Some (Num sma_20)
    /\ r !! "sma_50" = Some (Num sma_50).
Proof.
  intros Hc.
  destruct (generate_signal_with_data last_candle Hc) as (rsi & s20 & s50 & Hr & H20 & H50 & ->).
  destruct (classify _ _ _ _) as [[sig str] rec].
  eexists _, _, _, _. split; [reflexivity|].
  split; [exact Hr|]. split; [exact H20|]. split; [exact H50|].
  repeat split; by simplify_map_eq.
Qed.

(** X12.  On the record [generate_signal] makes of fetched candles,
    [display_signal] finds every key it reads: the seven values it shows for
    a HOLD, or, for a BUY or a SELL, the strength too, which is then 2. *)
Theorem display_signal_of_data :
  prices <> [] ->
  exists r price rsi sma_20 sma_50 time recommendation,
    generate_signal symbol world interval = Ok r
    /\ (display_signal r
          = Ok [price; Str "HOLD"; rsi; sma_20; sma_50; time; recommendation]
        \/ exists sig, (sig = "BUY" \/ sig = "SELL")
             /\ display_signal r
                = Ok [price; Str sig; Num (Int 2); rsi; sma_20; sma_50; time; recommendation]).
Proof.
  intros Hne. destruct (last_of_nonempty Hne) as [c Hc].
  destruct (generate_signal_with_data c Hc) as (rsi & s20 & s50 & _ & _ & _ & ->).
  destruct (classify_cases (Float (close c)) (Float rsi) s20 s50)
    as [(_ & _ & ->)|[(_ & _ & ->)|(_ & _ & ->)]];
    eexists _, _, _, _, _, _, _; (split; [reflexivity|]).
  - right. exists "BUY". split; [auto|]. apply display_signal_trade. auto.
  - right. exists "SELL". split; [auto|]. apply display_signal_trade. auto.
  - left. apply display_signal_hold.
Qed.

(** X13.  When between 1 and 19 candles were fetched, both moving averages
    are the int 0 of the short-sequence branch, no trend vote is cast, and
    the signal is HOLD with strength 0, whatever the closes. *)
Theorem generate_signal_under_20_candles :
  prices <> [] -> len prices < 20 ->
  exists r, generate_signal symbol world interval = Ok r
    /\ r !! "signal" = Some (Str "HOLD")
    /\ r !! "strength" = Some (Num (Int 0))
    /\ r !! "sma_20" = Some (Num (Int 0))
    /\ r !! "sma_50" = Some (Num (Int 0)).
Proof.
  intros Hne Hlen. destruct (last_of_nonempty Hne) as [c Hc].
  destruct (generate_signal_with_data c Hc) as (rsi & s20 & s50 & _ & H20 & H50 & ->).
  rewrite calculate_sma_short in H20, H50 by lia.
  injection H20 as <-. injection H50 as <-.
  destruct (classify_cases (Float (close c)) (Float rsi) (Int 0) (Int 0))
    as [(_ & H & _)|[(_ & H & _)|(_ & _ & ->)]]; try discriminate H.
  eexists. split; [reflexivity|]. repeat split; by simplify_map_eq.
Qed.

(** X14.  When fewer than 50 candles were fetched and their closes are all
    positive, the 50-candle average of the record is the int 0 of the
    short-sequence branch, the 20-candle average of the record is not below
    it, and the signal is BUY or HOLD, never SELL. *)
Theorem generate_signal_under_50_candles_never_sell :
  prices <> [] -> len prices < 50 ->
  Forall (fun p => gt (Float (close p)) (Int 0) = true) prices ->
  exists r sig sma_20,
    generate_signal symbol world interval = Ok r
    /\ r !! "sma_50" = Some (Num (Int 0))
    /\ r !! "sma_20" = Some (Num sma_20)
    /\ lt sma_20 (Int 0) = false
    /\ r !! "signal" = Some (Str sig)
    /\ (sig = "BUY" \/ sig = "HOLD")
    /\ sig <> "SELL".
Proof.
  intros Hne Hlen Hpos. destruct (last_of_nonempty Hne) as [c Hc].
  destruct (generate_signal_with_data c Hc) as (rsi & s20 & s50 & _ & H20 & H50 & ->).
  rewrite calculate_sma_short in H50 by lia. injection H50 as <-.
  assert (Hnot : lt s20 (Int 0) = false).
  { destruct (Z.lt_ge_cases (len prices) 20) as [Hshort|Hlong].
    - rewrite calculate_sma_short in H20 by exact Hshort. injection H20 as <-. reflexivity.
    - destruct (calculate_sma_of_positive prices 20) as (sma & Hsma & Hnn);
        [split; [lia|reflexivity]|lia|exact Hpos|].
      rewrite Hsma in H20. injection H20 as <-. apply nonneg_not_lt_0, Hnn. }
  destruct (classify_cases (Float (close c)) (Float rsi) s20 (Int 0))
    as [(_ & _ & ->)|[(_ & H & _)|(_ & _ & ->)]];
    [|rewrite Hnot in H; discriminate|];
    eexists _, _, s20; (split; [reflexivity|]);
    (split; [simplify_map_eq; reflexivity|]);
    (split; [simplify_map_eq; reflexivity|]);
    (split; [exact Hnot|]);
    (split; [simplify_map_eq; reflexivity|]);
    (split; [auto|discriminate]).
Qed.

End RecordFields.

Lemma generate_signal_fields_witness :
  exists r rsi sma_20 sma_50,
    generate_signal "BTCUSDT" (serving (map candle_at closes_1_to_15) noon) "1h" = Ok r
    /\ calculate_rsi (fetch_data "BTCUSDT" (serving (map candle_at closes_1_to_15) noon) "1h" 100)
         14 = Ok rsi
    /\ calculate_sma (fetch_data "BTCUSDT" (serving (map candle_at closes_1_to_15) noon) "1h" 100)
         20 = Ok sma_20
    /\ calculate_sma (fetch_data "BTCUSDT" (serving (map candle_at closes_1_to_15) noon) "1h" 100)
         50 = Ok sma_50
    /\ r !! "price" = Some (Num (Float (close (candle_at 15))))
    /\ r !! "symbol" = Some (Str "BTCUSDT")
    /\ r !! "rsi" = Some (Num rsi)
    /\ r !! "sma_20" = Some (Num sma_20)
    /\ r !! "sma_50" = Some (Num sma_50).
Proof.
  apply (generate_signal_fields "BTCUSDT" (serving (map candle_at closes_1_to_15) noon) "1h"
           (candle_at 15)).
  reflexivity.
Defined.

Lemma display_signal_of_data_witness :
  exists r price rsi sma_20 sma_50 time recommendation,
    generate_signal "BTCUSDT" (serving (map candle_at closes_1_to_15) noon) "1h" = Ok r
    /\ (display_signal r
          = Ok [price; Str "HOLD"; rsi; sma_20; sma_50; time; recommendation]
        \/ exists sig, (sig = "BUY" \/ sig = "SELL")
             /\ display_signal r
                = Ok [price; Str sig; Num (Int 2); rsi; sma_20; sma_50; time; recommendation]).
Proof.
  apply (display_signal_of_data "BTCUSDT" (serving (map candle_at closes_1_to_15) noon) "1h").
  vm_compute. discriminate.
Defined.

Lemma generate_signal_under_20_candles_witness :
  exists r,
    generate_signal "BTCUSDT" (serving (map candle_at closes_1_to_15) noon) "1h" = Ok r
    /\ r !! "signal" = Some (Str "HOLD")
    /\ r !! "strength" = Some (Num (Int 0))
    /\ r !! "sma_20" = Some (Num (Int 0))
    /\ r !! "sma_50" = Some (Num (Int 0)).
Proof.
  apply (generate_signal_under_20_candles "BTCUSDT"
           (serving (map candle_at closes_1_to_15) noon) "1h");
    vm_compute; [discriminate|reflexivity].
Defined.

(** Twenty-five closes that fall by 1 at each step: the 20-candle average is
    the float 10.5, above the int 0 of the 50-candle branch, the RSI is 0.0,
    and the signal is BUY. *)
Lemma generate_signal_under_50_candles_never_sell_witness :
  20 <= len (fetch_data "BTCUSDT" (serving (map candle_at closes_25_to_1) noon) "1h" 100) < 50
  /\ exists r sig sma_20,
       generate_signal "BTCUSDT" (serving (map candle_at closes_25_to_1) noon) "1h" = Ok r
       /\ r !! "sma_50" = Some (Num (Int 0))
       /\ r !! "sma_20" = Some (Num sma_20)
       /\ lt sma_20 (Int 0) = false
       /\ r !! "signal" = Some (Str sig)
       /\ (sig = "BUY" \/ sig = "HOLD")
       /\ sig <> "SELL".
Proof.
  split; [vm_compute; split; [discriminate|reflexivity]|].
  apply (generate_signal_under_50_candles_never_sell "BTCUSDT"
           (serving (map candle_at closes_25_to_1) noon) "1h").
  - vm_compute. discriminate.
  - vm_compute. reflexivity.
  - unfold fetch_data, serving, closes_25_to_1, closes_1_to_25, closes_1_to_15,
      closes_1_to_14. simpl.
    repeat (constructor; [vm_compute; reflexivity|]). constructor.
Defined.

(* ===================================================================== *)
(** * The time of day *)
(* ===================================================================== *)

Lemma append_cons (x : Ascii.ascii) (a b : string) :
  String.String x a +:+ b = String.String x (a +:+ b).
Proof. reflexivity. Qed.

Lemma append_assoc (a b c : string) : (a +:+ b) +:+ c = a +:+ (b +:+ c).
Proof.
  induction a as [|x a IH]; [reflexivity|]. rewrite !append_cons, IH. reflexivity.
Qed.

Lemma append_empty (a : string) : a +:+ String.EmptyString = a.
Proof. induction a as [|x a IH]; [reflexivity|]. rewrite append_cons, IH. reflexivity. Qed.

Lemma split_from_no_space (a word rest : string) :
  no_space a = true -> split_from word (a +:+ rest) = split_from (word +:+ a) rest.
Proof.
  revert word. induction a as [|c a IH]; intros word Ha.
  - rewrite append_empty. reflexivity.
  - simpl in Ha. apply andb_true_iff in Ha as [Hc Ha]. apply negb_true_iff in Hc.
    rewrite append_cons. cbn [split_from]. rewrite Hc, IH by exact Ha.
    rewrite append_assoc. reflexivity.
Qed.

Lemma matches_no_space (pattern s : string) :
  no_space pattern = true -> matches pattern s = true -> no_space s = true.
Proof.
  revert s. induction pattern as [|p pattern IH]; intros [|c s]; simpl; try discriminate; auto.
  intros Hp Hm. apply andb_true_iff in Hp as [Hp Hps]. apply andb_true_iff in Hm as [Hc Hs].
  rewrite (IH s Hps Hs), andb_true_r.
  destruct (Ascii.eqb p letter_d).
  - unfold is_digit in Hc. apply andb_true_iff in Hc as [H1 H2].
    apply Nat.leb_le in H1, H2. unfold is_space.
    repeat match goal with |- context [(?a <=? ?b)%nat] => destruct (Nat.leb_spec a b) end;
    repeat match goal with |- context [(?a =? ?b)%nat] => destruct (Nat.eqb_spec a b) end;
      simpl; try reflexivity; lia.
  - apply Ascii.eqb_eq in Hc. subst c. exact Hp.
Qed.

Lemma matches_nonempty (pattern s : string) :
  matches pattern s = true -> pattern <> String.EmptyString -> s <> String.EmptyString.
Proof. destruct pattern, s; simpl; congruence. Qed.

Lemma split_two_words (a b : string) :
  no_space a = true -> no_space b = true ->
  a <> String.EmptyString -> b <> String.EmptyString ->
  split (a +:+ " " +:+ b) = [a; b].
Proof.
  intros Ha Hb Hna Hnb. unfold split.
  rewrite split_from_no_space by exact Ha.
  change (String.EmptyString +:+ a) with a.
  unfold String.append at 1. fold String.append. cbn [split_from].
  match goal with |- context [is_space ?c] => change (is_space c) with true end.
  cbn match.
  destruct a as [|x a]; [contradiction|]. f_equal.
  rewrite <- (append_empty b) at 1.
  rewrite split_from_no_space by exact Hb.
  change (String.EmptyString +:+ b) with b. cbn [split_from].
  destruct b; [contradiction|reflexivity].
Qed.

Lemma time_format (dt : datetime) :
  four_digit_year dt ->
  matches "dd:dd:dd"
    (zero_pad 2 (hour dt) +:+ ":" +:+ zero_pad 2 (minute dt) +:+ ":"
     +:+ zero_pad 2 (second dt)) = true.
Proof.
  intros (_ & _ & _ & Hh & Hmi & Hs).
  change "dd:dd:dd" with ("dd" +:+ ":" +:+ "dd" +:+ ":" +:+ "dd").
  repeat (apply matches_app; [first [apply zero_pad_2_digits; lia|reflexivity]|]).
  apply zero_pad_2_digits; lia.
Qed.

Lemma strftime_Ymd_HMS_split (dt : datetime) :
  four_digit_year dt ->
  split (strftime_Ymd_HMS dt)
  = [zero_pad 4 (year dt) +:+ "-" +:+ zero_pad 2 (month dt) +:+ "-" +:+ zero_pad 2 (day dt);
     zero_pad 2 (hour dt) +:+ ":" +:+ zero_pad 2 (minute dt) +:+ ":" +:+ zero_pad 2 (second dt)].
Proof.
  intros Hdt. pose proof (time_format dt Hdt) as Htime.
  destruct Hdt as (Hy & Hmo & Hd & _).
  assert (Hdate : matches "dddd-dd-dd"
                    (zero_pad 4 (year dt) +:+ "-" +:+ zero_pad 2 (month dt) +:+ "-"
                     +:+ zero_pad 2 (day dt)) = true).
  { change "dddd-dd-dd" with ("dddd" +:+ "-" +:+ "dd" +:+ "-" +:+ "dd").
    repeat (apply matches_app; [first [apply zero_pad_4_digits; lia
                                      |apply zero_pad_2_digits; lia
                                      |reflexivity]|]).
    apply zero_pad_2_digits; lia. }
  unfold strftime_Ymd_HMS.
  rewrite <- (split_two_words _ _ (matches_no_space "dddd-dd-dd" _ eq_refl Hdate)
                (matches_no_space "dd:dd:dd" _ eq_refl Htime)
                (matches_nonempty _ _ Hdate ltac:(discriminate))
                (matches_nonempty _ _ Htime ltac:(discriminate))).
  rewrite !append_assoc. reflexivity.
Qed.

(** X15.  When candles were fetched, at a date of the common era with a
    four-digit year, the Time indicator [signal['timestamp'].split()[1]] is
    the time of day of the clock, as HH:MM:SS with two digits each. *)
Theorem time_of_day_of_data (symbol : string) (world : World) (interval : string) :
  fetch_data symbol world interval 100 <> [] -> four_digit_year (now world) ->
  exists r, generate_signal symbol world interval = Ok r
    /\ time_of_day r
       = Some (zero_pad 2 (hour (now world)) +:+ ":" +:+ zero_pad 2 (minute (now world))
               +:+ ":" +:+ zero_pad 2 (second (now world)))
    /\ matches "dd:dd:dd"
         (zero_pad 2 (hour (now world)) +:+ ":" +:+ zero_pad 2 (minute (now world))
          +:+ ":" +:+ zero_pad 2 (second (now world))) = true.
Proof.
  intros Hne Hclock. destruct (last_of_nonempty symbol world interval Hne) as [c Hc].
  destruct (generate_signal_with_data symbol world interval c Hc)
    as (rsi & s20 & s50 & _ & _ & _ & ->).
  destruct (classify _ _ _ _) as [[sig str] rec].
  eexists. split; [reflexivity|]. split; [|apply time_format, Hclock].
  unfold time_of_day. simplify_map_eq. rewrite strftime_Ymd_HMS_split by exact Hclock.
  reflexivity.
Qed.

Lemma time_of_day_of_data_witness :
  exists r,
    generate_signal "BTCUSDT" (serving (map candle_at closes_1_to_15) noon) "1h" = Ok r
    /\ time_of_day r
       = Some (zero_pad 2 (hour noon) +:+ ":" +:+ zero_pad 2 (minute noon)
               +:+ ":" +:+ zero_pad 2 (second noon))
    /\ matches "dd:dd:dd"
         (zero_pad 2 (hour noon) +:+ ":" +:+ zero_pad 2 (minute noon)
          +:+ ":" +:+ zero_pad 2 (second noon)) = true.
Proof.
  apply (time_of_day_of_data "BTCUSDT" (serving (map candle_at closes_1_to_15) noon) "1h").
  - vm_compute. discriminate.
  - unfold four_digit_year. simpl. lia.
Defined.

(* ===================================================================== *)
(** * [fetch_data]: all rows or none *)
(* ===================================================================== *)

Section FetchDataFacts.

Variable float_of_str : string -> option float.


Lemma fetch_klines_raised (response : option json) :
  response ≫= parse_klines float_of_str = None ->
  fetch_klines float_of_str response = [].
Proof. unfold fetch_klines. intros ->. reflexivity. Qed.

Lemma parse_klines_bad_item (data : json) (items : list json) (item : json) :
  iterate data = Some items -> In item items -> candle_dict float_of_str item = None ->
  parse_klines float_of_str data = None.
Proof.
  intros Hit Hin Hbad. unfold parse_klines. rewrite Hit. simpl.
  apply mapM_None. apply Exists_exists. exists item. split; [|exact Hbad].
  apply list_elem_of_In, Hin.
Qed.

Lemma candle_dict_short_list (fields : list json) :
  (length fields < 6)%nat -> candle_dict float_of_str (JList fields) = None.
Proof.
  intros H. unfold candle_dict.
  destruct fields as [|f0 [|f1 [|f2 [|f3 [|f4 [|f5 rest]]]]]]; simpl in H; try lia; simpl;
    repeat (match goal with |- context [mbind _ ?m] => destruct m end; simpl);
    reflexivity.
Qed.

Lemma chars_length (s : string) : length (chars s) = String.length s.
Proof.
  unfold chars. rewrite length_map.
  induction s as [|c s IH]; simpl; congruence.
Qed.

Lemma candle_dict_short_str (s : string) :
  (String.length s < 6)%nat -> candle_dict float_of_str (JStr s) = None.
Proof.
  intros H. rewrite <- chars_length in H. unfold candle_dict, subscript.
  destruct (chars s) as [|f0 [|f1 [|f2 [|f3 [|f4 [|f5 rest]]]]]]; simpl in H; try lia; simpl;
    repeat (match goal with |- context [mbind _ ?m] => destruct m end; simpl);
    reflexivity.
Qed.

Lemma candle_dict_fields (item : json) (row : Kline) :
  candle_dict float_of_str item = Some row ->
  subscript item 0 = Some (k_timestamp row)
  /\ subscript item 4 ≫= float_of float_of_str = Some (k_close row).
Proof.
  unfold candle_dict. intros Hrow.
  destruct (subscript item 0) as [t|]; [|discriminate]. simpl in Hrow.
  destruct (subscript item 1 ≫= float_of float_of_str) as [o|]; [|discriminate]. simpl in Hrow.
  destruct (subscript item 2 ≫= float_of float_of_str) as [h|]; [|discriminate]. simpl in Hrow.
  destruct (subscript item 3 ≫= float_of float_of_str) as [l|]; [|discriminate]. simpl in Hrow.
  destruct (subscript item 4 ≫= float_of float_of_str) as [c|]; [|discriminate]. simpl in Hrow.
  destruct (subscript item 5 ≫= float_of float_of_str) as [v|]; [|discriminate]. simpl in Hrow.
  injection Hrow as <-. auto.
Qed.


(** X17.  One row with fewer than six fields, anywhere in the response,
    costs all the rows: [fetch_data] returns the empty list. *)
Theorem fetch_klines_short_row (items fields : list json) :
  In (JList fields) items -> (length fields < 6)%nat ->
  fetch_klines float_of_str (Some (JList items)) = [].
Proof.
  intros Hin Hlen. apply fetch_klines_raised. simpl.
  apply (parse_klines_bad_item _ items (JList fields)); [reflexivity|exact Hin|].
  apply candle_dict_short_list, Hlen.
Qed.

(** X18.  A response that is an object, as the exchange sends for a request
    it refuses, is iterated over by its keys; when one of them has fewer
    than six characters [fetch_data] returns the empty list. *)
Theorem fetch_klines_object (entries : list (string * json)) (key : string) (value : json) :
  In (key, value) entries -> (String.length key < 6)%nat ->
  fetch_klines float_of_str (Some (JDict entries)) = [].
Proof.
  intros Hin Hlen. apply fetch_klines_raised. simpl.
  apply (parse_klines_bad_item _ (map (fun entry => JStr entry.1) entries) (JStr key));
    [reflexivity| |apply candle_dict_short_str, Hlen].
  apply in_map_iff. exists (key, value). auto.
Qed.

End FetchDataFacts.

Lemma fetch_klines_short_row_witness :
  fetch_klines float_of_digits
    (Some (JList [kline_row 0 "41000"; JList [JInt 3600000; JStr "42000"]])) = [].
Proof.
  apply (fetch_klines_short_row float_of_digits
           [kline_row 0 "41000"; JList [JInt 3600000; JStr "42000"]]
           [JInt 3600000; JStr "42000"]).
  - simpl. auto.
  - simpl. lia.
Defined.

Lemma fetch_klines_object_witness :
  fetch_klines float_of_digits (Some (JDict error_object)) = [].
Proof.
  apply (fetch_klines_object float_of_digits error_object "code" (JInt (-1121))).
  - simpl. auto.
  - simpl. lia.
Defined.

(* ===================================================================== *)
(** * From the response to the record *)
(* ===================================================================== *)

Section ExchangeFacts.

Variable float_of_str : string -> option float.
Variable http : string -> string -> Z -> option json.
Variable clock : datetime.
Variables symbol interval : string.

Lemma fetch_data_exchange (limit : Z) :
  fetch_data symbol (exchange float_of_str http clock) interval limit
  = map candle_of (fetch_klines float_of_str (http symbol interval limit)).
Proof.
  unfold fetch_data, exchange, fetch_klines. simpl.
  destruct (http symbol interval limit ≫= parse_klines float_of_str); reflexivity.
Qed.

(** X19.  When the exchange answers the request for the symbol, the
    interval and 100 candles with an object that has a key of fewer than
    six characters, [generate_signal] returns the record with signal ERROR
    and the recommendation "Unable to fetch data", for which the Time
    indicator raises. *)
Theorem generate_signal_refused_request
    (entries : list (string * json)) (key : string) (value : json) :
  http symbol interval 100 = Some (JDict entries) ->
  In (key, value) entries -> (String.length key < 6)%nat ->
  exists r, generate_signal symbol (exchange float_of_str http clock) interval = Ok r
    /\ r !! "signal" = Some (Str "ERROR")
    /\ r !! "recommendation" = Some (Str "Unable to fetch data")
    /\ time_of_day r = None.
Proof.
  intros Hbody Hin Hlen. eexists. split.
  - apply generate_signal_no_data. rewrite fetch_data_exchange, Hbody.
    unfold fetch_klines. simpl.
    rewrite (parse_klines_bad_item float_of_str _ (map (fun entry => JStr entry.1) entries)
               (JStr key)); [reflexivity|reflexivity| |apply candle_dict_short_str, Hlen].
    apply in_map_iff. exists (key, value). auto.
  - unfold time_of_day. repeat split; by simplify_map_eq.
Qed.

(** X20.  When the exchange answers the request for the symbol, the
    interval and 100 candles with a list of rows that [fetch_data] reads,
    the price of the record is the float of the fifth field of the last
    row. *)
Theorem generate_signal_price_of_last_row (items : list json) (item : json) :
  http symbol interval 100 = Some (JList items) -> last items = Some item ->
  fetch_klines float_of_str (Some (JList items)) <> [] ->
  exists r price,
    generate_signal symbol (exchange float_of_str http clock) interval = Ok r
    /\ subscript item 4 ≫= float_of float_of_str = Some price
    /\ r !! "price" = Some (Num (Float price)).
Proof.
  intros Hbody Hlast Hne.
  destruct (parse_klines float_of_str (JList items)) as [rows|] eqn:Hparse;
    [|contradiction Hne; apply fetch_klines_raised, Hparse].
  assert (Hrow : exists row, last rows = Some row /\ candle_dict float_of_str item = Some row).
  { unfold parse_klines in Hparse. simpl in Hparse. apply mapM_Some, Forall2_last in Hparse.
    rewrite Hlast in Hparse. inversion Hparse as [item' row Hrow|]. eauto. }
  destruct Hrow as (row & Hr & Hrow).
  assert (Hc : last (fetch_data symbol (exchange float_of_str http clock) interval 100)
               = Some (candle_of row)).
  { rewrite fetch_data_exchange, Hbody. unfold fetch_klines. simpl. rewrite Hparse. simpl.
    change (map candle_of rows) with (candle_of <$> rows). rewrite fmap_last, Hr. reflexivity. }
  destruct (generate_signal_with_data _ _ _ _ Hc) as (rsi & s20 & s50 & _ & _ & _ & ->).
  destruct (classify _ _ _ _) as [[sig str] rec].
  eexists _, (k_close row). split; [reflexivity|].
  split; [apply (candle_dict_fields _ _ _ Hrow)|]. by simplify_map_eq.
Qed.

End ExchangeFacts.

Lemma generate_signal_refused_request_witness :
  exists r,
    generate_signal "XYZUSDT"
      (exchange float_of_digits (answering (JDict error_object)) noon) "1h" = Ok r
    /\ r !! "signal" = Some (Str "ERROR")
    /\ r !! "recommendation" = Some (Str "Unable to fetch data")
    /\ time_of_day r = None.
Proof.
  apply (generate_signal_refused_request float_of_digits (answering (JDict error_object)) noon
           "XYZUSDT" "1h" error_object "code" (JInt (-1121))).
  - reflexivity.
  - simpl. auto.
  - simpl. lia.
Defined.

Lemma generate_signal_price_of_last_row_witness :
  exists r price,
    generate_signal "BTCUSDT" (exchange float_of_digits (answering two_rows) noon) "1h" = Ok r
    /\ subscript (kline_row 3600000 "42000") 4 ≫= float_of float_of_digits = Some price
    /\ r !! "price" = Some (Num (Float price)).
Proof.
  apply (generate_signal_price_of_last_row float_of_digits (answering two_rows) noon
           "BTCUSDT" "1h" [kline_row 0 "41000"; kline_row 3600000 "42000"]
           (kline_row 3600000 "42000")).
  - reflexivity.
  - reflexivity.
  - vm_compute. discriminate.
Defined.

(* ===================================================================== *)
(** * The neutral band of the RSI *)
(* ===================================================================== *)

Lemma le_not_gt (x y : num) : le x y = true -> lt y x = false.
Proof.
  destruct x as [a|a], y as [b|b]; simpl.
  - rewrite Z.leb_le, Z.ltb_ge. lia.
  - intros H. apply orb_true_iff in H as [H|H];
      [apply (is_cmp_exclusive Lt)|apply (is_cmp_exclusive Eq)]; auto; discriminate.
  - intros H. apply orb_true_iff in H as [H|H];
      [apply (is_cmp_exclusive Gt)|apply (is_cmp_exclusive Eq)]; auto; discriminate.
  - rewrite FloatAxioms.leb_spec, FloatAxioms.ltb_spec. unfold SFleb, SFltb.
    rewrite (SFcompare_antisym (Prim2SF a) (Prim2SF b)).
    destruct (SFcompare (Prim2SF a) (Prim2SF b)) as [[]|]; simpl; congruence.
Qed.

(** X21.  An RSI of at least 30 and at most 70, the two bounds included,
    casts no vote: the signal is HOLD with strength 0 whatever the two
    moving averages are. *)
Theorem classify_neutral_rsi_is_hold (current_price rsi sma_20 sma_50 : num) :
  le (Int 30) rsi = true -> le rsi (Int 70) = true ->
  classify current_price rsi sma_20 sma_50 = ("HOLD", 0, "No clear signal - HOLD position").
Proof.
  intros H30 H70. apply le_not_gt in H30, H70.
  destruct (classify_cases current_price rsi sma_20 sma_50)
    as [(H & _ & _)|[(H & _ & _)|(_ & _ & H)]]; [| |exact H].
  - rewrite H30 in H. discriminate.
  - unfold gt in H. rewrite H70 in H. discriminate.
Qed.

Lemma classify_neutral_rsi_is_hold_witness :
  classify (Float 100) (Float 30) (Float 110) (Float 100)
  = ("HOLD", 0, "No clear signal - HOLD position").
Proof.
  apply (classify_neutral_rsi_is_hold (Float 100) (Float 30) (Float 110) (Float 100));
    vm_compute; reflexivity.
Defined.

(* ===================================================================== *)
(** * The fields of a candle that are read *)
(* ===================================================================== *)

Lemma len_closes (prices : list Candle) : len (map close prices) = len prices.
Proof. unfold len. rewrite length_map. reflexivity. Qed.

Lemma slice_from_map {A B} (f : A -> B) (start : Z) (l : list A) :
  map f (slice_from start l) = slice_from start (map f l).
Proof.
  unfold slice_from, len. rewrite length_map. symmetry. apply skipn_map.
Qed.

Lemma calculate_rsi_closes (prices prices' : list Candle) (period : Z) :
  map close prices = map close prices' ->
  calculate_rsi prices period = calculate_rsi prices' period.
Proof.
  intros H. unfold calculate_rsi.
  rewrite <- (len_closes prices), <- (len_closes prices'), H. reflexivity.
Qed.

Lemma calculate_sma_closes (prices prices' : list Candle) (period : Z) :
  map close prices = map close prices' ->
  calculate_sma prices period = calculate_sma prices' period.
Proof.
  intros H. unfold calculate_sma.
  rewrite <- (len_closes prices), <- (len_closes prices'), !slice_from_map, H. reflexivity.
Qed.

(** X22.  Of the candles it fetches, [generate_signal] reads the closes
    only: two fetches with the same closes, at the same time, give the same
    record, whatever the time stamps, opens, highs, lows and volumes. *)
Theorem generate_signal_reads_closes (symbol interval : string) (world world' : World) :
  map close (fetch_data symbol world interval 100)
  = map close (fetch_data symbol world' interval 100) ->
  now world = now world' ->
  generate_signal symbol world interval = generate_signal symbol world' interval.
Proof.
  intros H Hnow. unfold generate_signal.
  rewrite (calculate_rsi_closes _ _ 14 H), (calculate_sma_closes _ _ 20 H),
    (calculate_sma_closes _ _ 50 H), Hnow.
  assert (Hlast : close <$> last (fetch_data symbol world interval 100)
                  = close <$> last (fetch_data symbol world' interval 100)).
  { rewrite <- !fmap_last. exact (f_equal last H). }
  destruct (last (fetch_data symbol world interval 100)) as [c|],
           (last (fetch_data symbol world' interval 100)) as [c'|];
    try discriminate; [|reflexivity].
  injection Hlast as ->. reflexivity.
Qed.

Lemma generate_signal_reads_closes_witness :
  generate_signal "BTCUSDT" (serving (map candle_at closes_1_to_15) noon) "1h"
  = generate_signal "BTCUSDT" (serving (map traded_at closes_1_to_15) noon) "1h".
Proof.
  apply (generate_signal_reads_closes "BTCUSDT" "1h"
           (serving (map candle_at closes_1_to_15) noon)
           (serving (map traded_at closes_1_to_15) noon)); reflexivity.
Defined.
